(** * money-works: the Money value type of [src/lib/money.js]

    A shallow embedding of the immutable decimal-plus-currency value and of
    its arithmetic, rounding, allocation, comparison and conversion
    operations, together with the properties its specification states.

    The platform the source runs on is modelled first: JavaScript Numbers
    (IEEE 754 binary64, through the Standard Library's [SpecFloat]), the
    exact decimals of big.js, JavaScript values, exceptions and promises.
    The operations of [money.js] follow, one definition per source
    function, and then the theorems. *)

From Stdlib Require Import ZArith QArith Qabs List String Ascii Bool Lia.
From Stdlib Require Import Floats.SpecFloat.
Import ListNotations.

Local Open Scope Z_scope.

(** ** JavaScript Numbers *)

Module Number.

(** A Number is an IEEE 754 binary64 value: 53 bits of precision, exponents
    below 1024. *)
Definition number : Type := spec_float.

Definition prec : Z := 53.
Definition emax : Z := 1024.

Definition NaN : number := S754_nan.
Definition Infinity : number := S754_infinity false.
Definition pos_zero : number := S754_zero false.
Definition neg_zero : number := S754_zero true.

(** [a + b] and [a / b] on Numbers. *)
Definition add (a b : number) : number := SFadd prec emax a b.
Definition div (a b : number) : number := SFdiv prec emax a b.

(** The Number denoted by an integer literal. *)
Definition of_Z (z : Z) : number := binary_normalize prec emax z 0 false.

(** The Number denoted by the decimal literal [coef * 10^-scale]; the
    quotient of two exactly representable integers is correctly rounded, so
    this is the literal's value whenever [|coef| < 2^53] and [scale <= 22]. *)
Definition literal (coef : Z) (scale : nat) : number :=
  div (of_Z coef) (of_Z (10 ^ Z.of_nat scale)).

(** A well-formed binary64 datum. *)
Definition valid (x : number) : bool := valid_binary prec emax x.

Definition isNaN (x : number) : bool :=
  match x with S754_nan => true | _ => false end.

Definition isFinite (x : number) : bool :=
  match x with S754_zero _ | S754_finite _ _ _ => true | _ => false end.

Definition is_zero (x : number) : bool :=
  match x with S754_zero _ => true | _ => false end.

(** [x > 0] and [x >= 0]. *)
Definition is_positive (x : number) : bool := SFltb pos_zero x.
Definition is_nonneg (x : number) : bool := SFleb pos_zero x.

(** The integer a Number denotes, when it denotes one. *)
Definition to_Z (x : number) : option Z :=
  match x with
  | S754_zero _ => Some 0
  | S754_finite s m e =>
      let v :=
        if 0 <=? e then Some (Z.pos m * 2 ^ e)
        else if Z.pos m mod 2 ^ (- e) =? 0 then Some (Z.pos m / 2 ^ (- e))
        else None in
      option_map (fun z => if s then - z else z) v
  | _ => None
  end.

(** [Number.isInteger(x)] for a Number [x]. *)
Definition isInteger (x : number) : bool :=
  match to_Z x with Some _ => true | None => false end.

(** *** Number to decimal string

    [String(x)] prints the decimal [s * 10^q] with the fewest significant
    digits that reads back as [x], taking the one closest to [x] when
    several have that many digits (ECMAScript, Number::toString).  Such a
    decimal reads back as [x = m * 2^e] when it lies in the rounding
    interval of [x]: between the midpoints to the neighbouring Numbers, the
    midpoints included when [m] is even. *)

Section Shortest.
Variables (m : positive) (e : Z).

(** The interval and [x] itself, in units of [2^(e-2)]. *)
Definition interval_lo : Z :=
  if Pos.eqb m (2 ^ 52) && (emin prec emax <? e) then 4 * Z.pos m - 1
  else 4 * Z.pos m - 2.
Definition interval_hi : Z := 4 * Z.pos m + 2.

(** [x / 10^q = num q / den q], and one unit of [2^(e-2)] is
    [unit q / den q] in units of [10^q]. *)
Definition unit (q : Z) : Z := 2 ^ Z.max (e - 2) 0 * 10 ^ Z.max (- q) 0.
Definition num (q : Z) : Z := 4 * Z.pos m * unit q.
Definition den (q : Z) : Z := 10 ^ Z.max q 0 * 2 ^ Z.max (- (e - 2)) 0.

Definition reads_back (q s : Z) : bool :=
  if Z.even (Z.pos m)
  then (interval_lo * unit q <=? s * den q) && (s * den q <=? interval_hi * unit q)
  else (interval_lo * unit q <? s * den q) && (s * den q <? interval_hi * unit q).

(** The multiple of [10^q] that reads back as [x] and is closest to it. *)
Definition candidate (q : Z) : option Z :=
  let s := num q / den q in
  let r := num q mod den q in
  match reads_back q s, reads_back q (s + 1) with
  | true, true =>
      match 2 * r ?= den q with
      | Lt => Some s
      | Gt => Some (s + 1)
      | Eq => Some (if Z.even s then s else s + 1)
      end
  | true, false => Some s
  | false, true => Some (s + 1)
  | false, false => None
  end.

(** Search from the largest decimal exponent downwards: the first exponent
    with a candidate gives the fewest digits.  At [q = min e 0] the quotient
    [x / 10^q] is an integer, so the search ends there at the latest. *)
Fixpoint search (fuel : nat) (q : Z) : Z * Z :=
  match fuel with
  | O => (num q / den q, q)
  | S fuel' =>
      match candidate q with
      | Some s => (s, q)
      | None => search fuel' (q - 1)
      end
  end.

Definition shortest : Z * Z :=
  let top := Z.max 0 (Z.pos (digits2_pos m) + e) in
  search (Z.to_nat (top - Z.min e 0)) top.

End Shortest.

(** *** Vocabulary for sums of non-negative Numbers *)

(** A sum of non-negative Numbers: zero, infinite, or finite and positive
    with an exponent in range. *)
Definition nonneg_sum (t : number) : Prop :=
  t = pos_zero \/ t = Infinity \/
  exists m e, t = S754_finite false m e /\ emin prec emax <= e.

(** [t] is infinite, or its magnitude is at least that of the finite
    non-zero Number [r]. *)
Definition dominates (t r : number) : Prop :=
  match r with
  | S754_finite _ m e =>
      t = Infinity \/
      exists mt et,
        t = S754_finite false mt et /\
        Z.pos (digits2_pos m) + e <= Z.pos (digits2_pos mt) + et
  | _ => True
  end.
End Number.

Definition number : Type := Number.number.

(** ** Exact decimals

    The numeric content of a big.js value: an integer coefficient and the
    number of digits after the decimal point, denoting
    [coef * 10^-scale].  All arithmetic below is exact. *)

Module Decimal.

Record t : Type := mk { coef : Z; scale : nat }.

Definition zero : t := mk 0 0.

Definition pow10 (n : nat) : Z := 10 ^ Z.of_nat n.

(** The coefficient of [x] rewritten with [s >= scale x] decimal places. *)
Definition align (x : t) (s : nat) : Z := coef x * pow10 (s - scale x).

Definition plus (x y : t) : t :=
  let s := Nat.max (scale x) (scale y) in
  mk (align x s + align y s) s.

Definition minus (x y : t) : t :=
  let s := Nat.max (scale x) (scale y) in
  mk (align x s - align y s) s.

Definition times (x y : t) : t :=
  mk (coef x * coef y) (scale x + scale y).

(** [x.cmp(y)]: -1, 0 or 1. *)
Definition cmp (x y : t) : Z :=
  match coef x * pow10 (scale y) ?= coef y * pow10 (scale x) with
  | Lt => -1
  | Eq => 0
  | Gt => 1
  end.

(** Rounding modes of big.js: 0 rounds towards zero, 1 to nearest with ties
    away from zero, 2 to nearest with ties to even, 3 away from zero. *)
Definition ROUND_DOWN : Z := 0.
Definition ROUND_HALF_UP : Z := 1.
Definition ROUND_HALF_EVEN : Z := 2.
Definition ROUND_UP : Z := 3.

(** Whether the kept digits [q] are incremented, given the discarded part
    [r] out of [p]. *)
Definition more (rm : Z) (q r p : Z) : bool :=
  if rm =? ROUND_HALF_UP then p <=? 2 * r
  else if rm =? ROUND_HALF_EVEN then (p <? 2 * r) || ((2 * r =? p) && Z.odd q)
  else if rm =? ROUND_UP then 0 <? r
  else false.

(** [x.round(dp, rm)] for a number of decimal places [dp] and a rounding
    mode [rm] already checked: the digits after the first [dp] decimal
    places are discarded and the magnitude incremented as [rm] says. *)
Definition round (x : t) (dp : nat) (rm : Z) : t :=
  if (dp <? scale x)%nat then
    let p := pow10 (scale x - dp) in
    let q := Z.abs (coef x) / p in
    let r := Z.abs (coef x) mod p in
    mk (Z.sgn (coef x) * (if more rm q r p then q + 1 else q)) dp
  else x.

(** The rational a decimal denotes. *)
Definition toQ (x : t) : Q := Qmake (coef x) (Z.to_pos (pow10 (scale x))).

(** The decimal [s * 10^q]. *)
Definition of_sci (s q : Z) : t :=
  if 0 <=? q then mk (s * 10 ^ q) 0 else mk s (Z.to_nat (- q)).

(** *** Decimal literals

    big.js accepts an optional minus sign, then digits with an optional
    point and optional further digits, or a point followed by digits, then
    an optional exponent: [e] or [E], an optional sign and digits. *)

Definition digit_of (c : ascii) : option Z :=
  let n := Z.of_nat (nat_of_ascii c) in
  if (48 <=? n) && (n <=? 57) then Some (n - 48) else None.

(** The longest prefix of digits: its value, its length and the rest. *)
Fixpoint digits (s : string) (acc : Z) (len : nat) : Z * nat * string :=
  match s with
  | String c rest =>
      match digit_of c with
      | Some d => digits rest (10 * acc + d) (S len)
      | None => (acc, len, s)
      end
  | EmptyString => (acc, len, s)
  end.

Definition is_char (c : ascii) (a b : ascii) : bool :=
  Ascii.eqb c a || Ascii.eqb c b.

(** The exponent part, if the rest of the literal is one (or is empty). *)
Definition exponent (s : string) : option Z :=
  match s with
  | EmptyString => Some 0
  | String c rest =>
      if is_char c "e" "E" then
        let '(neg, rest') :=
          match rest with
          | String sg r =>
              if Ascii.eqb sg "-" then (true, r)
              else if Ascii.eqb sg "+" then (false, r)
              else (false, rest)
          | EmptyString => (false, rest)
          end in
        match digits rest' 0 0 with
        | (v, S _, EmptyString) => Some (if neg then - v else v)
        | _ => None
        end
      else None
  end.

Definition parse (s : string) : option t :=
  let '(neg, body) :=
    match s with
    | String c rest => if Ascii.eqb c "-" then (true, rest) else (false, s)
    | EmptyString => (false, s)
    end in
  let '(ip, ilen, rest) := digits body 0 0 in
  let '(fp, flen, rest') :=
    match rest with
    | String c r => if Ascii.eqb c "." then digits r 0 0 else (0, O, rest)
    | EmptyString => (0, O, rest)
    end in
  let has_point :=
    match rest with
    | String c _ => Ascii.eqb c "."
    | EmptyString => false
    end in
  if (0 <? ilen)%nat || (has_point && (0 <? flen)%nat) then
    match exponent rest' with
    | Some ex =>
        let c := ip * pow10 flen + fp in
        Some (of_sci (if neg then - c else c) (ex - Z.of_nat flen))
    | None => None
    end
  else None.

End Decimal.

(** [new Big(x)] for a Number [x]: the decimal [String(x)] denotes; the
    strings of [NaN] and of the infinities are no decimal literals. *)
Definition decimal_of_number (x : number) : option Decimal.t :=
  match x with
  | S754_zero _ => Some Decimal.zero
  | S754_finite s m e =>
      let '(c, q) := Number.shortest m e in
      Some (Decimal.of_sci (if s then - c else c) q)
  | S754_infinity _ | S754_nan => None
  end.

(** ** JavaScript values, exceptions and promises *)

(** The values the operations receive as amounts, scalars, precisions and
    exchange rates. *)
Inductive value : Type :=
| VUndefined
| VNull
| VBool (b : bool)
| VNumber (n : number)
| VString (s : string)
| VBig (b : Decimal.t).

(** What big.js rejects. *)
Inductive big_error : Type :=
| InvalidNumber
| InvalidDecimalPlaces
| InvalidRoundingMode.

(** What a [throw] carries: an [Error] or a [TypeError] raised by
    [money.js] with its message, or an error raised inside big.js. *)
Inductive exn : Type :=
| Error (message : string)
| TypeError (message : string)
| BigError (reason : big_error).

(** The completion of a synchronous call. *)
Inductive completion (A : Type) : Type :=
| Return (a : A)
| Throw (e : exn).

Arguments Return {A} a.
Arguments Throw {A} e.

Definition bind {A B : Type} (c : completion A) (k : A -> completion B)
  : completion B :=
  match c with
  | Return a => k a
  | Throw e => Throw e
  end.

Notation "x <- c ;; k" := (bind c (fun x => k))
  (at level 61, c at next level, right associativity).
Notation "' p <- c ;; k" := (bind c (fun x => let 'p := x in k))
  (at level 61, p pattern, c at next level, right associativity).

(** [try { body } catch (e) { handler }] *)
Definition try_catch {A : Type} (body : completion A)
  (handler : exn -> completion A) : completion A :=
  match body with
  | Return a => Return a
  | Throw e => handler e
  end.

(** The eventual state of a promise. *)
Inductive promise (A : Type) : Type :=
| Fulfilled (a : A)
| Rejected (e : exn)
| Pending.

Arguments Fulfilled {A} a.
Arguments Rejected {A} e.
Arguments Pending {A}.

(** What a [then] callback returns: a plain value or a promise to follow. *)
Inductive thenable (A : Type) : Type :=
| Plain (a : A)
| Follow (p : promise A).

Arguments Plain {A} a.
Arguments Follow {A} p.

(** [p.then(callback)] *)
Definition promise_then {A B : Type} (p : promise A)
  (callback : A -> completion (thenable B)) : promise B :=
  match p with
  | Fulfilled a =>
      match callback a with
      | Return (Plain b) => Fulfilled b
      | Return (Follow q) => q
      | Throw e => Rejected e
      end
  | Rejected e => Rejected e
  | Pending => Pending
  end.

(** Truthiness, as the condition of [if] and the left operand of [&&] use
    it. *)
Definition truthy (v : value) : bool :=
  match v with
  | VUndefined | VNull => false
  | VBool b => b
  | VNumber n => negb (Number.is_zero n || Number.isNaN n)
  | VString s => negb (String.eqb s "")
  | VBig _ => true
  end.

(** [Number.isInteger(v)] *)
Definition Number_isInteger (v : value) : bool :=
  match v with
  | VNumber n => Number.isInteger n
  | _ => false
  end.

(** ** big.js

    The operations of big.js that [money.js] calls, on exact decimals.
    An argument that is not a Big is converted with [new Big]; an argument
    big.js does not accept makes the call throw. *)

Module Big.

Definition MAX_DP : Z := 1000000.

(** [new Big(v)]: a Big is copied, a string is read as a decimal literal,
    and any other value is read through its string. *)
Definition new (v : value) : completion Decimal.t :=
  match v with
  | VBig b => Return b
  | VNumber n =>
      match decimal_of_number n with
      | Some b => Return b
      | None => Throw (BigError InvalidNumber)
      end
  | VString s =>
      match Decimal.parse s with
      | Some b => Return b
      | None => Throw (BigError InvalidNumber)
      end
  | VUndefined | VNull | VBool _ => Throw (BigError InvalidNumber)
  end.

(** [x.times(y)] *)
Definition times (x : Decimal.t) (y : value) : completion Decimal.t :=
  y' <- new y ;;
  Return (Decimal.times x y').

(** [x.round(dp, rm)]: [dp] defaults to 0 and must otherwise be an integer
    Number from 0 to [MAX_DP]; [rm] must be one of the four modes. *)
Definition round (x : Decimal.t) (dp : value) (rm : Z)
  : completion Decimal.t :=
  places <-
    match dp with
    | VUndefined => Return O
    | VNumber n =>
        match Number.to_Z n with
        | Some z =>
            if (0 <=? z) && (z <=? MAX_DP) then Return (Z.to_nat z)
            else Throw (BigError InvalidDecimalPlaces)
        | None => Throw (BigError InvalidDecimalPlaces)
        end
    | _ => Throw (BigError InvalidDecimalPlaces)
    end ;;
  if (0 <=? rm) && (rm <=? 3) then Return (Decimal.round x places rm)
  else Throw (BigError InvalidRoundingMode).

End Big.

(** ** money.js *)

Module Money.

(** [iso4217 = /^[A-Z]{3}$/] *)
Definition is_upper (c : ascii) : bool :=
  let n := nat_of_ascii c in
  ((65 <=? n) && (n <=? 90))%nat.

Definition iso4217_test (s : string) : bool :=
  match s with
  | String a (String b (String c EmptyString)) =>
      is_upper a && is_upper b && is_upper c
  | _ => false
  end.

(** [roundingMode = 2], ROUND_HALF_EVEN, banker's rounding *)
Definition roundingMode : Z := 2.

(** [zero = new Big(0)] *)
Definition zero : Decimal.t := Decimal.zero.

(** A Money object: its two properties, and whether it has been frozen. *)
Record Money : Type := mkMoney {
  amount : Decimal.t;
  currency : string;
  frozen : bool
}.

(** An assignment to a property of a Money object; a frozen object keeps
    its properties. *)
Definition set_amount (m : Money) (a : Decimal.t) : Money :=
  if frozen m then m else mkMoney a (currency m) (frozen m).

Definition set_currency (m : Money) (c : string) : Money :=
  if frozen m then m else mkMoney (amount m) c (frozen m).

(** The messages of the errors [money.js] raises, under the names the
    specification gives to the kinds of error. *)
Definition InvalidCurrency (code : string) : exn :=
  Error ("'" ++ code ++ "' is not a valid ISO-4217 currency code").

Definition CurrencyMismatch : exn := Error "Currencies must be the same".

Definition NoRate (from to : string) : exn :=
  Error ("Undefined exchange rate for " ++ from ++ " to " ++ to).

(** *** String helpers of the one-argument constructor *)

(** [s.lastIndexOf(c)], -1 when [c] does not occur; [i] is the index of the
    first character of [s]. *)
Fixpoint lastIndexOf_from (s : string) (c : ascii) (i : Z) (found : Z) : Z :=
  match s with
  | EmptyString => found
  | String a rest =>
      lastIndexOf_from rest c (i + 1) (if Ascii.eqb a c then i else found)
  end.

Definition lastIndexOf (s : string) (c : ascii) : Z :=
  lastIndexOf_from s c 0 (-1).

(** [s.slice(from, to)]: negative indices count from the end. *)
Definition slice (s : string) (from to : Z) : string :=
  let len := Z.of_nat (String.length s) in
  let clamp i := if i <? 0 then Z.max (len + i) 0 else Z.min i len in
  let a := clamp from in
  let b := clamp to in
  substring (Z.to_nat a) (Z.to_nat (Z.max (b - a) 0)) s.

(** [s.slice(from)] *)
Definition slice_from (s : string) (from : Z) : string :=
  slice s from (Z.of_nat (String.length s)).

(** The single argument of the one-argument constructor calls: a string
    ["<amount> <currency>"], or an object with an [amount] and a
    [currency] property. *)
Inductive single : Type :=
| OfString (s : string)
| OfObject (amount : value) (currency : string).

Section Collaborators.

(** The modules [money.js] requires that are not part of it:
    [./number], the numeric-string normaliser; [./l10n], of which
    [precision] reads [resolvedOptions().maximumFractionDigits] for a
    currency; and [./free-forex], the default [Money.forexService], which
    answers with a promise of a rate. *)
Variable normalise : string -> string.
Variable maximumFractionDigits : string -> value.
Variable forexService : string -> string -> promise value.

(** [new Money(amount, currency)] *)
Definition new (amount : value) (currency : string) : completion Money :=
  let amount :=
    match amount with
    | VString s => VString (normalise s)
    | _ => amount
    end in
  amount <- Big.new amount ;;
  if negb (iso4217_test currency) then Throw (InvalidCurrency currency)
  else Return (mkMoney amount currency true).

(** [new Money('1.2 EUR')] and [new Money(json)] *)
Definition new1 (arg : single) : completion Money :=
  match arg with
  | OfString amount =>
      let i := lastIndexOf amount " " in
      let currency := slice_from amount (i + 1) in
      let amount := slice amount 0 i in
      new (VString amount) currency
  | OfObject amount currency => new amount currency
  end.

(** [Money.prototype.precision] *)
Definition precision (this : Money) : value :=
  maximumFractionDigits (currency this).

(** [Money.prototype.plus] *)
Definition plus (this that : Money) : completion Money :=
  if negb (String.eqb (currency this) (currency that)) then
    Throw (Error "Currencies must be the same")
  else new (VBig (Decimal.plus (amount this) (amount that))) (currency this).

(** [Money.prototype.minus] *)
Definition minus (this that : Money) : completion Money :=
  if negb (String.eqb (currency this) (currency that)) then
    Throw (Error "Currencies must be the same")
  else new (VBig (Decimal.minus (amount this) (amount that))) (currency this).

(** [Money.prototype.times] *)
Definition times (this : Money) (that : value) : completion Money :=
  match that with
  | VNumber _ =>
      a <- Big.times (amount this) that ;;
      new (VBig a) (currency this)
  | _ => Throw (TypeError "Money multiplication needs a Number")
  end.

(** [Money.prototype.round] *)
Definition round (this : Money) (precision' : value) : completion Money :=
  if truthy precision' && negb (Number_isInteger precision') then
    Throw (TypeError "Precision must be an integer")
  else
    let precision' :=
      match precision' with
      | VUndefined => precision this
      | _ => precision'
      end in
    a <- Big.round (amount this) precision' roundingMode ;;
    new (VBig a) (currency this).

(** [Money.prototype.compare] *)
Definition compare (this that : Money) : completion Z :=
  if negb (String.eqb (currency this) (currency that)) then
    Throw (Error "Currencies must be the same")
  else Return (Decimal.cmp (amount this) (amount that)).

(** [Money.prototype.eq] *)
Definition eq (this that : Money) : completion bool :=
  if String.eqb (currency this) (currency that) then
    c <- compare this that ;;
    Return (c =? 0)
  else Return false.

(** [Money.prototype.ne] *)
Definition ne (this that : Money) : completion bool :=
  if negb (String.eqb (currency this) (currency that)) then Return true
  else
    c <- compare this that ;;
    Return (negb (c =? 0)).

(** [Money.prototype.isZero] and [Money.prototype.isNotZero] *)
Definition isZero (this : Money) : bool :=
  Decimal.cmp (amount this) zero =? 0.

Definition isNotZero (this : Money) : bool :=
  negb (Decimal.cmp (amount this) zero =? 0).

(** [Money.prototype.isPositive] and [Money.prototype.isNegative] *)
Definition isPositive (this : Money) : bool :=
  0 <? Decimal.cmp (amount this) zero.

Definition isNegative (this : Money) : bool :=
  Decimal.cmp (amount this) zero <? 0.

(** [Money.prototype.lt], [lte], [gt] and [gte] *)
Definition lt (this that : Money) : completion bool :=
  c <- compare this that ;;
  Return (c <? 0).

Definition lte (this that : Money) : completion bool :=
  c <- compare this that ;;
  Return (c <=? 0).

Definition gt (this that : Money) : completion bool :=
  c <- compare this that ;;
  Return (0 <? c).

Definition gte (this that : Money) : completion bool :=
  c <- compare this that ;;
  Return (0 <=? c).

(** The [ratios] argument of [allocate]: an Array of Numbers, or some
    other value. *)
Inductive ratios_arg : Type :=
| Array (elements : list number)
| NotArray (v : value).

(** One call of the callback of [ratios.map] in [allocate]: the share of
    [ratio], and the remainder it leaves. *)
Definition share_of (amount : Money) (total : number) (precision' : value)
  (ratio : number) (remainder : Money) : completion (Money * Money) :=
  scaled <- times amount (VNumber (Number.div ratio total)) ;;
  share <- round scaled precision' ;;
  remainder <- minus remainder share ;;
  Return (share, remainder).

(** [ratios.map(...)], threading the variable [remainder] the callback
    assigns to. *)
Fixpoint map_shares (amount : Money) (total : number) (precision' : value)
  (ratios : list number) (remainder : Money)
  : completion (list Money * Money) :=
  match ratios with
  | [] => Return ([], remainder)
  | ratio :: ratios' =>
      '(share, remainder) <- share_of amount total precision' ratio remainder ;;
      '(shares, remainder) <- map_shares amount total precision' ratios' remainder ;;
      Return (share :: shares, remainder)
  end.

(** [ratios.reduce((a, b) => a + b, 0)] *)
Definition total_of (ratios : list number) : number :=
  fold_left Number.add ratios (Number.of_Z 0).

(** [Money.prototype.allocate] *)
Definition allocate (this : Money) (ratios : ratios_arg) (precision' : value)
  : completion (list Money) :=
  match ratios with
  | NotArray _ => Throw (TypeError "Money allocation needs an Array")
  | Array ratios =>
      if (List.length ratios <? 1)%nat then
        Throw (TypeError "Money allocation needs a non-empty Array")
      else
        let total := total_of ratios in
        amount <- round this precision' ;;
        '(shares, remainder) <-
          map_shares amount total precision' ratios amount ;;
        if isNotZero remainder then
          match shares with
          | first :: rest =>
              sum <- plus first remainder ;;
              first <- round sum precision' ;;
              Return (first :: rest)
          | [] => Throw (TypeError "Cannot read properties of undefined")
          end
        else Return shares
  end.

(** The callback [to] passes to [then]. *)
Definition to_callback (self : Money) (currency' : string) (rate : value)
  : completion (thenable Money) :=
  try_catch
    (match rate with
     | VUndefined => Return (Follow (Rejected (NoRate (currency self) currency')))
     | _ =>
         a <- Big.times (amount self) rate ;;
         m <- new (VBig a) currency' ;;
         Return (Plain m)
     end)
    (fun e => Return (Follow (Rejected e))).

(** [Money.prototype.to]: the promise it returns, and the calls it made to
    [Money.forexService]. *)
Definition to (this : Money) (currency' : string)
  : completion (promise Money * list (string * string)) :=
  if String.eqb (currency this) currency' then Return (Fulfilled this, [])
  else if negb (iso4217_test currency') then
    Return (Rejected (InvalidCurrency currency'), [])
  else
    let self := this in
    Return (promise_then (forexService (currency self) currency')
              (to_callback self currency'),
            [(currency self, currency')]).

(** The Money objects the program can hold: those the constructor returns
    and those the operations return. *)
Inductive produced : Money -> Prop :=
| produced_new : forall a c m, new a c = Return m -> produced m
| produced_new1 : forall arg m, new1 arg = Return m -> produced m
| produced_plus : forall x y m,
    produced x -> produced y -> plus x y = Return m -> produced m
| produced_minus : forall x y m,
    produced x -> produced y -> minus x y = Return m -> produced m
| produced_times : forall x k m,
    produced x -> times x k = Return m -> produced m
| produced_round : forall x p m,
    produced x -> round x p = Return m -> produced m
| produced_allocate : forall x ratios p shares m,
    produced x -> allocate x ratios p = Return shares -> In m shares ->
    produced m
| produced_to : forall x c m calls,
    produced x -> to x c = Return (Fulfilled m, calls) -> produced m.

(** The sum of a list of Money of one currency, by [plus]. *)
Fixpoint sum_from (acc : Money) (l : list Money) : completion Money :=
  match l with
  | [] => Return acc
  | m :: l' => acc' <- plus acc m ;; sum_from acc' l'
  end.

Definition sum (l : list Money) : completion Money :=
  match l with
  | [] => Throw (TypeError "empty sum")
  | m :: l' => sum_from m l'
  end.

(** *** Vocabulary of the specification *)

(** The decimal places a non-negative integer Number that big.js accepts
    stands for. *)
Definition places (v : value) : option nat :=
  match v with
  | VNumber n =>
      match Number.to_Z n with
      | Some z =>
          if (0 <=? z) && (z <=? Big.MAX_DP) then Some (Z.to_nat z) else None
      | None => None
      end
  | _ => None
  end.

(** A non-negative integer Number. *)
Definition nonneg_integer (v : value) : bool :=
  match v with
  | VNumber n =>
      match Number.to_Z n with
      | Some z => 0 <=? z
      | None => false
      end
  | _ => false
  end.

(** [x] lies exactly halfway between [k] and [k + 1] units of the [d]-th
    decimal place. *)
Definition halfway (x : Decimal.t) (d : nat) (k : Z) : Prop :=
  (Decimal.toQ x * inject_Z (Decimal.pow10 d) == inject_Z k + (1 # 2))%Q.

(** A valid precision for [this], and the decimal places [d] it stands
    for: a non-negative integer Number, or [undefined] (the argument left
    out) when the localisation collaborator reports such a Number for the
    currency. *)
Definition valid_precision (this : Money) (precision' : value) (d : nat)
  : Prop :=
  match precision' with
  | VUndefined => places (precision this) = Some d
  | _ => places precision' = Some d
  end.

(** A ratio the specification admits: a finite binary64 Number that is not
    negative. *)
Definition ratio_ok (r : number) : bool :=
  Number.valid r && Number.isFinite r && Number.is_nonneg r.

(** The decimal big.js reads from the Number [ratio / total]. *)
Definition quotient (total ratio : number) : Decimal.t :=
  match decimal_of_number (Number.div ratio total) with
  | Some f => f
  | None => Decimal.zero
  end.

(** The provisional share of [ratio]: [amount * (ratio / total)] rounded
    half to even to [d] decimal places. *)
Definition provisional (amount : Money) (total : number) (d : nat)
  (ratio : number) : Money :=
  mkMoney
    (Decimal.round (Decimal.times (Money.amount amount) (quotient total ratio))
                   d roundingMode)
    (currency amount) true.

(** The exact sum of the amounts of a list of Money. *)
Definition total_value (l : list Money) : Q :=
  fold_right (fun m acc => Decimal.toQ (Money.amount m) + acc)%Q 0%Q l.

End Collaborators.

(** The kinds of error the specification names, and the errors of the
    program of each kind.  The program raises no error of the kind
    InvalidAllocation. *)
Inductive error_kind : Type :=
| KInvalidCurrency
| KInvalidAmount
| KCurrencyMismatch
| KTypeError
| KInvalidAllocation
| KNoRate.

Inductive has_kind : exn -> error_kind -> Prop :=
| kind_currency : forall code, has_kind (InvalidCurrency code) KInvalidCurrency
| kind_amount : has_kind (BigError InvalidNumber) KInvalidAmount
| kind_mismatch : has_kind CurrencyMismatch KCurrencyMismatch
| kind_type : forall message, has_kind (TypeError message) KTypeError
| kind_rate : forall from to, has_kind (NoRate from to) KNoRate.

(** *** Text *)

(** A string without a space. *)
Fixpoint no_space (s : string) : bool :=
  match s with
  | EmptyString => true
  | String c rest => negb (Ascii.eqb c " ") && no_space rest
  end.

Section Printing.

(** [toString] of big.js: the text of a Big, in plain or in exponential
    notation as big.js is configured. *)
Variable Big_toString : Decimal.t -> string.

(** [Money.prototype.toString] *)
Definition toString (this : Money) : string :=
  Big_toString (amount this) ++ " " ++ currency this.

End Printing.

End Money.

(** ** Sample collaborators and values, for the examples *)

Module Sample.

Definition normalise (s : string) : string := s.

Definition maximumFractionDigits (c : string) : value :=
  if String.eqb c "JPY" then VNumber (Number.of_Z 0)
  else VNumber (Number.of_Z 2).

Definition forexService (from to : string) : promise value :=
  if String.eqb to "ZZZ" then Fulfilled VUndefined
  else if String.eqb to "EUR" then Fulfilled (VNumber (Number.literal 9 1))
  else if String.eqb to "GBP" then Fulfilled (VString "n/a")
  else Rejected (Error "rate service unavailable").

(** [new Money(10, 'USD')], [new Money(0.05, 'USD')],
    [new Money(2.5, 'JPY')], [new Money(3.5, 'JPY')] and
    [new Money(1, 'EUR')] *)
Definition usd10 : Money.Money := Money.mkMoney (Decimal.mk 10 0) "USD" true.
Definition usd005 : Money.Money := Money.mkMoney (Decimal.mk 5 2) "USD" true.
Definition jpy25 : Money.Money := Money.mkMoney (Decimal.mk 25 1) "JPY" true.
Definition jpy35 : Money.Money := Money.mkMoney (Decimal.mk 35 1) "JPY" true.
Definition eur1 : Money.Money := Money.mkMoney (Decimal.mk 1 0) "EUR" true.

(** The operations with the sample collaborators. *)
Definition new := Money.new normalise.
Definition round := Money.round normalise maximumFractionDigits.
Definition allocate := Money.allocate normalise maximumFractionDigits.
Definition plus := Money.plus normalise.
Definition minus := Money.minus normalise.
Definition sum := Money.sum normalise.
Definition to := Money.to normalise forexService.
Definition produced :=
  Money.produced normalise maximumFractionDigits forexService.
Definition valid_precision := Money.valid_precision maximumFractionDigits.

(** The Numbers [3], [1], [0], [-1], [1.5], [2**600] and [2**-600] *)
Definition n3 : number := Number.of_Z 3.
Definition n1 : number := Number.of_Z 1.
Definition n0 : number := Number.of_Z 0.
Definition minus1 : number := Number.of_Z (-1).
Definition n1_5 : number := Number.literal 15 1.
Definition huge : number := Number.of_Z (2 ^ 600).
Definition minus_huge : number := Number.of_Z (- 2 ^ 600).
Definition tiny : number := Number.div n1 huge.

(** A printer of decimals in plain notation, for [toString]. *)
Fixpoint digits_string (fuel : nat) (n : Z) (acc : string) : string :=
  match fuel with
  | O => acc
  | S fuel' =>
      let acc' := String (ascii_of_nat (48 + Z.to_nat (n mod 10))) acc in
      if n / 10 =? 0 then acc' else digits_string fuel' (n / 10) acc'
  end.

Definition natural_string (n : Z) : string :=
  digits_string (S (Z.to_nat (Z.log2 n))) n EmptyString.

Definition Big_toString (x : Decimal.t) : string :=
  let c := Z.abs (Decimal.coef x) in
  let p := Decimal.pow10 (Decimal.scale x) in
  let sign := if Decimal.coef x <? 0 then "-"%string else EmptyString in
  let fraction :=
    match natural_string (p + c mod p) with
    | String _ rest => String "." rest
    | EmptyString => EmptyString
    end in
  let point := if (Decimal.scale x =? 0)%nat then EmptyString else fraction in
  String.append sign (String.append (natural_string (c / p)) point).

Definition toString := Money.toString Big_toString.
Definition new1 := Money.new1 normalise.
Definition times := Money.times normalise.

(** [new Money(-3.5, 'USD')], [new Money(0, 'USD')] and
    [new Money(1.005, 'USD')] *)
Definition minus_usd35 : Money.Money :=
  Money.mkMoney (Decimal.mk (-35) 1) "USD" true.
Definition usd0 : Money.Money := Money.mkMoney (Decimal.mk 0 0) "USD" true.
Definition usd1005 : Money.Money :=
  Money.mkMoney (Decimal.mk 1005 3) "USD" true.

End Sample.

(** * Properties *)

(** ** Exact decimals *)

Section DecimalFacts.

Import Decimal.

Lemma pow10_pos (n : nat) : 0 < pow10 n.
Proof. unfold pow10. apply Z.pow_pos_nonneg; lia. Qed.

Lemma pow10_add (a b : nat) : pow10 (a + b) = pow10 a * pow10 b.
Proof.
  unfold pow10. rewrite Nat2Z.inj_add, Z.pow_add_r by lia. reflexivity.
Qed.

Lemma pow10_split (s a : nat) :
  (a <= s)%nat -> pow10 s = pow10 (s - a) * pow10 a.
Proof.
  intros H. rewrite <- pow10_add. f_equal. lia.
Qed.

Lemma pos_pow10 (n : nat) : Z.pos (Z.to_pos (pow10 n)) = pow10 n.
Proof. apply Z2Pos.id, pow10_pos. Qed.

(** Two decimals denote the same rational when their coefficients agree
    once brought to a common scale. *)
Lemma toQ_eq (x y : t) :
  (toQ x == toQ y)%Q <-> coef x * pow10 (scale y) = coef y * pow10 (scale x).
Proof.
  unfold toQ, Qeq. simpl. rewrite !pos_pow10. reflexivity.
Qed.

Lemma align_spec (x : t) (s : nat) :
  (scale x <= s)%nat -> align x s * pow10 (scale x) = coef x * pow10 s.
Proof.
  intros H. unfold align. rewrite (pow10_split s (scale x) H). ring.
Qed.

Lemma toQ_plus (x y : t) : (toQ (plus x y) == toQ x + toQ y)%Q.
Proof.
  unfold toQ, Qeq, Qplus, plus. simpl.
  rewrite Pos2Z.inj_mul, !pos_pow10.
  set (s := Nat.max (scale x) (scale y)).
  assert (Hx := align_spec x s ltac:(lia)).
  assert (Hy := align_spec y s ltac:(lia)).
  transitivity ((align x s * pow10 (scale x)) * pow10 (scale y)
                + (align y s * pow10 (scale y)) * pow10 (scale x)); [ring|].
  rewrite Hx, Hy. ring.
Qed.

Lemma toQ_minus (x y : t) : (toQ (minus x y) == toQ x - toQ y)%Q.
Proof.
  unfold toQ, Qeq, Qminus, Qplus, Qopp, minus. simpl.
  rewrite Pos2Z.inj_mul, !pos_pow10.
  set (s := Nat.max (scale x) (scale y)).
  assert (Hx := align_spec x s ltac:(lia)).
  assert (Hy := align_spec y s ltac:(lia)).
  transitivity ((align x s * pow10 (scale x)) * pow10 (scale y)
                - (align y s * pow10 (scale y)) * pow10 (scale x)); [ring|].
  rewrite Hx, Hy. ring.
Qed.

Lemma toQ_times (x y : t) : (toQ (times x y) == toQ x * toQ y)%Q.
Proof.
  unfold toQ, Qeq, Qmult, times. simpl.
  rewrite Pos2Z.inj_mul, !pos_pow10, pow10_add. ring.
Qed.

Lemma cmp_eq_iff (x y : t) : cmp x y = 0 <-> (toQ x == toQ y)%Q.
Proof.
  rewrite toQ_eq. unfold cmp.
  destruct (Z.compare_spec (coef x * pow10 (scale y))
                           (coef y * pow10 (scale x))); split; intros; lia.
Qed.

(** Rounding to at least as many places as a decimal has changes
    nothing, and a rounded decimal has at most the places asked for. *)
Lemma round_id (x : t) (dp : nat) (rm : Z) :
  (scale x <= dp)%nat -> round x dp rm = x.
Proof.
  intros H. unfold round.
  destruct (Nat.ltb_spec dp (scale x)); [lia | reflexivity].
Qed.

Lemma round_scale (x : t) (dp : nat) (rm : Z) :
  (scale (round x dp rm) <= dp)%nat.
Proof.
  unfold round. destruct (Nat.ltb_spec dp (scale x)); simpl; lia.
Qed.

Lemma plus_scale (x y : t) : scale (plus x y) = Nat.max (scale x) (scale y).
Proof. reflexivity. Qed.

Lemma minus_scale (x y : t) : scale (minus x y) = Nat.max (scale x) (scale y).
Proof. reflexivity. Qed.

Lemma parity_cases (k : Z) :
  (Z.even k = true /\ Z.odd k = false /\ exists a, k = 2 * a) \/
  (Z.even k = false /\ Z.odd k = true /\ exists a, k = 2 * a + 1).
Proof.
  destruct (Z.even k) eqn:E.
  - left. rewrite <- Z.negb_even, E. apply Z.even_spec in E.
    destruct E as [a ->]. eauto.
  - right. rewrite <- Z.negb_even, E.
    assert (O : Z.odd k = true) by (rewrite <- Z.negb_even, E; reflexivity).
    apply Z.odd_spec in O. destruct O as [a ->]. eauto.
Qed.

Lemma more_half_even (q r p : Z) :
  more ROUND_HALF_EVEN q r p = (p <? 2 * r) || ((2 * r =? p) && Z.odd q).
Proof. reflexivity. Qed.

(** A decimal exactly halfway between [k] and [k + 1] units of the last
    kept place is rounded, in mode ROUND_HALF_EVEN, to the even one. *)
Lemma round_tie (x : t) (d : nat) (k : Z) :
  2 * coef x * pow10 d = (2 * k + 1) * pow10 (scale x) ->
  round x d ROUND_HALF_EVEN = mk (if Z.even k then k else k + 1) d.
Proof.
  intros H. unfold round.
  assert (Hd := pow10_pos d).
  destruct (Nat.ltb_spec d (scale x)) as [Hlt|Hge].
  - rewrite (pow10_split (scale x) d) in H by lia.
    set (p := pow10 (scale x - d)) in *.
    assert (Hp : 0 < p) by apply pow10_pos.
    assert (Hc : 2 * coef x = (2 * k + 1) * p) by nia.
    assert (Hq := Z.div_mod (Z.abs (coef x)) p ltac:(lia)).
    assert (Hr := Z.mod_pos_bound (Z.abs (coef x)) p Hp).
    set (q := Z.abs (coef x) / p) in *.
    set (r := Z.abs (coef x) mod p) in *.
    assert (Hn : coef x <> 0).
    { intros Z0. rewrite Z0 in Hc. symmetry in Hc.
      apply Z.mul_eq_0 in Hc. lia. }
    f_equal. rewrite more_half_even.
    destruct (Z.abs_spec (coef x)) as [[Hs Ha]|[Hs Ha]].
    + assert (Hk : 2 * r - p = 2 * p * (k - q)) by lia.
      assert (Hz : k - q = 0)
        by (destruct (Z.lt_trichotomy k q) as [|[|]]; nia).
      rewrite Hz, Z.mul_0_r in Hk.
      assert (q = k) by lia. assert (2 * r = p) by lia. subst k.
      rewrite Z.sgn_pos by lia.
      replace (p <? 2 * r) with false by (symmetry; apply Z.ltb_ge; lia).
      replace (2 * r =? p) with true by (symmetry; apply Z.eqb_eq; lia).
      rewrite Z.mul_1_l.
      destruct (parity_cases q) as [(-> & -> & _)|(-> & -> & _)];
        reflexivity.
    + assert (Hk : 2 * r - p = 2 * p * (- k - 1 - q)) by lia.
      assert (Hz : - k - 1 - q = 0)
        by (destruct (Z.lt_trichotomy (- k - 1) q) as [|[|]]; nia).
      rewrite Hz, Z.mul_0_r in Hk.
      assert (q = - k - 1) by lia. assert (2 * r = p) by lia.
      rewrite Z.sgn_neg by lia.
      replace (p <? 2 * r) with false by (symmetry; apply Z.ltb_ge; lia).
      replace (2 * r =? p) with true by (symmetry; apply Z.eqb_eq; lia).
      destruct (parity_cases q) as [(_ & -> & a & Hqa)|(_ & -> & a & Hqa)];
        destruct (parity_cases k) as [(-> & _ & b & Hkb)|(-> & _ & b & Hkb)];
        cbn [orb andb]; lia.
  - exfalso. rewrite (pow10_split d (scale x)) in H by lia.
    assert (Hs := pow10_pos (scale x)).
    set (a := pow10 (d - scale x)) in *.
    assert (2 * (coef x * a) = 2 * k + 1) by nia. lia.
Qed.

End DecimalFacts.

(** ** Numbers *)

Section NumberFacts.

Import Number.

(** *** Binary digits *)

Lemma digits2_size (m : positive) : digits2_pos m = Pos.size m.
Proof. induction m; simpl; congruence. Qed.

Lemma digits_bounds (m : positive) :
  2 ^ (Z.pos (digits2_pos m) - 1) <= Z.pos m < 2 ^ Z.pos (digits2_pos m).
Proof.
  rewrite digits2_size. split.
  - assert (H := Pos.size_le m).
    assert (E : 2 ^ Z.pos (Pos.size m) = 2 * 2 ^ (Z.pos (Pos.size m) - 1)).
    { rewrite <- Z.pow_succ_r by lia. f_equal. lia. }
    apply Pos2Z.pos_le_pos in H. rewrite Pos2Z.inj_pow in H.
    change (Z.pos m~0) with (2 * Z.pos m) in H. lia.
  - assert (H := Pos.size_gt m).
    apply Pos2Z.pos_lt_pos in H. rewrite Pos2Z.inj_pow in H. exact H.
Qed.

Lemma digits_le (m : positive) (d : Z) :
  0 <= d -> Z.pos m < 2 ^ d -> Z.pos (digits2_pos m) <= d.
Proof.
  intros Hd H. destruct (digits_bounds m) as [L _].
  destruct (Z_lt_le_dec d (Z.pos (digits2_pos m))) as [G|]; [|assumption].
  assert (2 ^ d <= 2 ^ (Z.pos (digits2_pos m) - 1))
    by (apply Z.pow_le_mono_r; lia).
  lia.
Qed.

Lemma digits_ge (m : positive) (d : Z) :
  2 ^ (d - 1) <= Z.pos m -> d <= Z.pos (digits2_pos m).
Proof.
  intros H. destruct (digits_bounds m) as [_ U].
  destruct (Z_lt_le_dec (Z.pos (digits2_pos m)) d) as [G|]; [|assumption].
  assert (2 ^ Z.pos (digits2_pos m) <= 2 ^ (d - 1))
    by (apply Z.pow_le_mono_r; lia).
  lia.
Qed.

Lemma digits_mono (m m' : positive) :
  (m <= m')%positive -> Z.pos (digits2_pos m) <= Z.pos (digits2_pos m').
Proof.
  intros H. apply digits_ge. destruct (digits_bounds m) as [L _]. lia.
Qed.

Lemma Zdigits2_nonneg (z : Z) : 0 <= Zdigits2 z.
Proof. destruct z; simpl; lia. Qed.

Lemma Zdigits2_le (z d : Z) :
  0 <= z -> 0 <= d -> z < 2 ^ d -> Zdigits2 z <= d.
Proof.
  intros Hz Hd H. destruct z as [|m|m]; simpl; [lia | | lia].
  apply digits_le; assumption.
Qed.

Lemma Zdigits2_mono (a b : Z) : 0 <= a <= b -> Zdigits2 a <= Zdigits2 b.
Proof.
  intros [Ha Hab]. destruct a as [|a|a], b as [|b|b]; simpl; try lia.
  apply digits_mono. lia.
Qed.

(** *** Shifting to the right *)

Lemma iter_pos_nat {A : Type} (f : A -> A) (p : positive) (x : A) :
  iter_pos f p x = Nat.iter (Pos.to_nat p) f x.
Proof.
  revert x. induction p as [p IH|p IH|]; intros x; cbn [iter_pos].
  - rewrite !IH, Pos2Nat.inj_xI, <- Nat.iter_add, <- Nat.iter_succ_r.
    f_equal. lia.
  - rewrite !IH, Pos2Nat.inj_xO, <- Nat.iter_add. f_equal. lia.
  - reflexivity.
Qed.

Lemma shr_1_m (mrs : shr_record) :
  0 <= shr_m mrs -> shr_m (shr_1 mrs) = shr_m mrs / 2.
Proof.
  destruct mrs as [m r s]. simpl. intros H.
  destruct m as [|[p|p|]|p]; simpl; try lia; try reflexivity.
  - rewrite Pos2Z.inj_xI. apply Z.div_unique with 1; lia.
  - rewrite Pos2Z.inj_xO. apply Z.div_unique with 0; lia.
Qed.

Lemma iter_shr_m (n : nat) (mrs : shr_record) :
  0 <= shr_m mrs ->
  shr_m (Nat.iter n shr_1 mrs) = shr_m mrs / 2 ^ Z.of_nat n.
Proof.
  intros H. induction n as [|n IH].
  - simpl. rewrite Z.div_1_r. reflexivity.
  - rewrite Nat.iter_succ, shr_1_m, IH.
    + rewrite Nat2Z.inj_succ, Z.pow_succ_r by lia.
      rewrite Z.div_div by lia. f_equal. lia.
    + rewrite IH. apply Z.div_pos; lia.
Qed.

(** What [shr] leaves of a non-negative mantissa. *)
Lemma shr_spec (mrs : shr_record) (e n : Z) :
  0 <= shr_m mrs ->
  shr_m (fst (shr mrs e n)) = shr_m mrs / 2 ^ Z.max n 0 /\
  snd (shr mrs e n) = e + Z.max n 0.
Proof.
  intros H. destruct n as [|p|p]; simpl.
  - rewrite Z.div_1_r. split; [reflexivity | lia].
  - rewrite iter_pos_nat, iter_shr_m by assumption.
    rewrite positive_nat_Z. split; [reflexivity | lia].
  - rewrite Z.div_1_r. split; [reflexivity | lia].
Qed.

Lemma shr_record_of_loc_m (m : Z) (l : location) :
  shr_m (shr_record_of_loc m l) = m.
Proof. destruct l as [|[]]; reflexivity. Qed.

Lemma round_nearest_even_cases (m : Z) (l : location) :
  round_nearest_even m l = m \/ round_nearest_even m l = m + 1.
Proof.
  destruct l as [|[]]; simpl; auto. destruct (Z.even m); auto.
Qed.

Lemma Zdigits2_div (m k : Z) :
  0 <= m -> 0 <= k -> Zdigits2 (m / 2 ^ k) <= Z.max (Zdigits2 m - k) 0.
Proof.
  intros Hm Hk.
  assert (Hp : 0 < 2 ^ k) by (apply Z.pow_pos_nonneg; lia).
  assert (Hq : 0 <= m / 2 ^ k) by (apply Z.div_pos; lia).
  assert (Hu : m < 2 ^ Zdigits2 m).
  { destruct m as [|p|p]; simpl; try lia. apply digits_bounds. }
  assert (Hd := Zdigits2_nonneg m).
  destruct (Z_lt_le_dec (Zdigits2 m) k) as [L|G].
  - assert (2 ^ Zdigits2 m <= 2 ^ k) by (apply Z.pow_le_mono_r; lia).
    rewrite Z.div_small by lia. simpl. lia.
  - assert (Zdigits2 (m / 2 ^ k) <= Zdigits2 m - k); [|lia].
    apply Zdigits2_le; try lia.
    apply Z.div_lt_upper_bound; [lia|].
    rewrite <- Z.pow_add_r by lia.
    replace (k + (Zdigits2 m - k)) with (Zdigits2 m) by lia. assumption.
Qed.

Lemma Zdigits2_succ (m : Z) : 0 <= m -> Zdigits2 (m + 1) <= Zdigits2 m + 1.
Proof.
  intros Hm. assert (Hd := Zdigits2_nonneg m).
  assert (Hu : m < 2 ^ Zdigits2 m).
  { destruct m as [|p|p]; simpl; try lia. apply digits_bounds. }
  apply Zdigits2_le; try lia.
  rewrite Z.pow_add_r by lia. change (2 ^ 1) with 2. lia.
Qed.

(** What [shr_fexp] returns for a non-negative mantissa. *)
Lemma shr_fexp_spec (m e : Z) (l : location) :
  0 <= m ->
  let n := Z.max (fexp prec emax (Zdigits2 m + e) - e) 0 in
  shr_m (fst (shr_fexp prec emax m e l)) = m / 2 ^ n /\
  snd (shr_fexp prec emax m e l) = e + n.
Proof.
  intros Hm n. unfold shr_fexp.
  rewrite <- (shr_record_of_loc_m m l) at 3.
  apply shr_spec. rewrite shr_record_of_loc_m. assumption.
Qed.

(** Rounding a non-negative mantissa whose magnitude is below the largest
    binade overflows to no infinity. *)
Lemma round_aux_finite (s : bool) (mx ex : Z) (lx : location) :
  0 <= mx -> ex <= 971 -> Zdigits2 mx + ex <= 1023 ->
  isFinite (binary_round_aux prec emax s mx ex lx) = true.
Proof.
  intros Hm He HM. unfold binary_round_aux.
  destruct (shr_fexp_spec mx ex lx Hm) as [H1 H1e].
  destruct (shr_fexp prec emax mx ex lx) as [mrs' e']. cbn [fst snd] in H1, H1e.
  set (n := Z.max (fexp prec emax (Zdigits2 mx + ex) - ex) 0) in *.
  assert (Hp : 0 < 2 ^ n) by (apply Z.pow_pos_nonneg; lia).
  assert (H1p : 0 <= shr_m mrs') by (rewrite H1; apply Z.div_pos; lia).
  assert (H1d := Zdigits2_div mx n Hm ltac:(lia)). rewrite <- H1 in H1d.
  set (m2 := round_nearest_even (shr_m mrs') (loc_of_shr_record mrs')).
  assert (H2 : 0 <= m2 /\ Zdigits2 m2 <= Zdigits2 (shr_m mrs') + 1).
  { unfold m2.
    destruct (round_nearest_even_cases (shr_m mrs') (loc_of_shr_record mrs'))
      as [-> | ->]; [lia|].
    split; [lia | apply Zdigits2_succ; assumption]. }
  destruct H2 as [H2p H2d].
  destruct (shr_fexp_spec m2 e' loc_Exact H2p) as [H3 H3e].
  destruct (shr_fexp prec emax m2 e' loc_Exact) as [mrs'' e'']. cbn [fst snd] in H3, H3e.
  set (n' := Z.max (fexp prec emax (Zdigits2 m2 + e') - e') 0) in *.
  assert (Hp' : 0 < 2 ^ n') by (apply Z.pow_pos_nonneg; lia).
  assert (H3p : 0 <= shr_m mrs'') by (rewrite H3; apply Z.div_pos; lia).
  assert (Hd := Zdigits2_nonneg mx).
  assert (Hb : e'' <= 971).
  { unfold n, n', fexp, emin, prec, emax in *. lia. }
  destruct (shr_m mrs'') as [|p|p]; [reflexivity | | lia].
  replace (e'' <=? emax - prec) with true; [reflexivity|].
  symmetry. apply Z.leb_le. unfold emax, prec. lia.
Qed.

(** *** Division does not overflow when the divisor is no smaller in
    magnitude *)

Lemma div_core_spec (m1 m2 : positive) (e1 e2 : Z) :
  let e' := Z.min (fexp prec emax (Z.pos (digits2_pos m1) + e1
                                   - (Z.pos (digits2_pos m2) + e2)))
                  (e1 - e2) in
  exists l,
    SFdiv_core_binary prec emax (Z.pos m1) e1 (Z.pos m2) e2
    = (Z.pos m1 * 2 ^ (e1 - e2 - e') / Z.pos m2, e', l).
Proof.
  intros e'. unfold SFdiv_core_binary. cbn [Zdigits2]. fold e'.
  assert (Hs : 0 <= e1 - e2 - e') by (unfold e'; lia).
  assert (E : match e1 - e2 - e' with
              | Z.pos _ => Z.shiftl (Z.pos m1) (e1 - e2 - e')
              | 0 => Z.pos m1
              | Z.neg _ => 0
              end = Z.pos m1 * 2 ^ (e1 - e2 - e')).
  { destruct (e1 - e2 - e') as [|p|p] eqn:Es.
    - simpl. lia.
    - rewrite Z.shiftl_mul_pow2 by lia. reflexivity.
    - lia. }
  rewrite E. unfold Z.div.
  destruct (Z.div_eucl _ _) as [q r]. eexists. reflexivity.
Qed.

Lemma div_finite (s1 s2 : bool) (m1 m2 : positive) (e1 e2 : Z) :
  Z.pos (digits2_pos m1) + e1 <= Z.pos (digits2_pos m2) + e2 ->
  isFinite (div (S754_finite s1 m1 e1) (S754_finite s2 m2 e2)) = true.
Proof.
  intros H. unfold div, SFdiv.
  destruct (div_core_spec m1 m2 e1 e2) as [l ->].
  set (d1 := Z.pos (digits2_pos m1)) in *.
  set (d2 := Z.pos (digits2_pos m2)) in *.
  set (e' := Z.min (fexp prec emax (d1 + e1 - (d2 + e2))) (e1 - e2)).
  set (s := e1 - e2 - e').
  assert (Hs : 0 <= s) by (unfold s, e'; lia).
  assert (He : e' <= -53) by (unfold e', fexp, emin, prec, emax; lia).
  assert (Hp : 0 < 2 ^ s) by (apply Z.pow_pos_nonneg; lia).
  destruct (digits_bounds m1) as [_ U1]. fold d1 in U1.
  destruct (digits_bounds m2) as [L2 _]. fold d2 in L2.
  assert (Hd2 : 0 < 2 ^ (d2 - 1)) by (apply Z.pow_pos_nonneg; lia).
  set (q := Z.pos m1 * 2 ^ s / Z.pos m2).
  assert (Hq : 0 <= q) by (apply Z.div_pos; lia).
  assert (Hqd : Zdigits2 q <= Z.max (d1 + s - (d2 - 1)) 0).
  { assert (Hle : q <= Z.pos m1 * 2 ^ s / 2 ^ (d2 - 1))
      by (apply Z.div_le_compat_l; lia).
    assert (Hm : Zdigits2 (Z.pos m1 * 2 ^ s) <= d1 + s).
    { apply Zdigits2_le; try lia.
      rewrite Z.pow_add_r by lia. nia. }
    assert (Hdiv := Zdigits2_div (Z.pos m1 * 2 ^ s) (d2 - 1)
                      ltac:(lia) ltac:(lia)).
    assert (Hmono := Zdigits2_mono q _ (conj Hq Hle)).
    lia. }
  apply round_aux_finite; lia.
Qed.

(** *** Addition of non-negative Numbers does not lose magnitude *)

Lemma iter_xO (d m : positive) :
  Z.pos (Pos.iter xO m d) = Z.pos m * 2 ^ Z.pos d.
Proof.
  induction d as [|d IH] using Pos.peano_ind.
  - cbn [Pos.iter]. rewrite Pos2Z.inj_xO. change (2 ^ 1) with 2. ring.
  - rewrite Pos.iter_succ, Pos2Z.inj_xO, IH, Pos2Z.inj_succ.
    rewrite Z.pow_succ_r by lia. ring.
Qed.

Lemma shl_align_spec (m : positive) (e e' : Z) :
  Z.pos (fst (shl_align m e e')) = Z.pos m * 2 ^ (e - Z.min e e') /\
  snd (shl_align m e e') = Z.min e e'.
Proof.
  unfold shl_align. destruct (e' - e) as [|d|d] eqn:E; simpl.
  - replace (Z.min e e') with e by lia.
    rewrite Z.sub_diag, Z.pow_0_r. split; [lia | reflexivity].
  - assert (Hd : 0 < e' - e) by (rewrite E; reflexivity).
    replace (Z.min e e') with e by lia.
    rewrite Z.sub_diag, Z.pow_0_r. split; [lia | reflexivity].
  - assert (Hd : e - e' = Z.pos d)
      by (change (Z.neg d) with (- Z.pos d) in E; lia).
    replace (Z.min e e') with e' by lia. rewrite iter_xO, Hd.
    split; reflexivity.
Qed.

Lemma digits_shift (m p : positive) (k : Z) :
  0 <= k -> Z.pos p = Z.pos m * 2 ^ k ->
  Z.pos (digits2_pos p) = Z.pos (digits2_pos m) + k.
Proof.
  intros Hk E. destruct (digits_bounds m) as [L U].
  set (d := Z.pos (digits2_pos m)) in *.
  assert (Hp : 0 < 2 ^ k) by (apply Z.pow_pos_nonneg; lia).
  apply Z.le_antisymm.
  - apply digits_le; [lia|]. rewrite E, Z.pow_add_r by lia. nia.
  - apply digits_ge. rewrite E.
    replace (d + k - 1) with (d - 1 + k) by lia.
    rewrite Z.pow_add_r by lia. nia.
Qed.

Lemma digits_div (m : positive) (k : Z) :
  0 <= k < Z.pos (digits2_pos m) ->
  exists p, Z.pos m / 2 ^ k = Z.pos p /\
            Z.pos (digits2_pos p) = Z.pos (digits2_pos m) - k.
Proof.
  intros Hk. destruct (digits_bounds m) as [L U].
  set (d := Z.pos (digits2_pos m)) in *.
  assert (Hp : 0 < 2 ^ k) by (apply Z.pow_pos_nonneg; lia).
  assert (E : 2 ^ (d - 1) = 2 ^ k * 2 ^ (d - 1 - k)).
  { rewrite <- Z.pow_add_r by lia. f_equal. lia. }
  assert (E' : 2 ^ d = 2 ^ k * 2 ^ (d - k)).
  { rewrite <- Z.pow_add_r by lia. f_equal. lia. }
  assert (Hl : 2 ^ (d - 1 - k) <= Z.pos m / 2 ^ k)
    by (apply Z.div_le_lower_bound; lia).
  assert (Hu : Z.pos m / 2 ^ k < 2 ^ (d - k))
    by (apply Z.div_lt_upper_bound; lia).
  assert (H0 : 0 < 2 ^ (d - 1 - k)) by (apply Z.pow_pos_nonneg; lia).
  destruct (Z.pos m / 2 ^ k) as [|p|p] eqn:Eq; try lia.
  exists p. split; [reflexivity|].
  apply Z.le_antisymm.
  - apply digits_le; lia.
  - apply digits_ge. replace (d - k - 1) with (d - 1 - k) by lia. lia.
Qed.

(** The exponent [fexp] assigns lies below the magnitude, for magnitudes
    above the smallest exponent. *)
Lemma fexp_below (M : Z) :
  emin prec emax < M -> fexp prec emax M < M.
Proof. unfold fexp, emin, prec, emax. lia. Qed.

(** One [shr_fexp] step on a positive mantissa whose exponent is not
    above the one [fexp] assigns: the magnitude is kept. *)
Lemma shr_fexp_positive (m : positive) (e : Z) (l : location) :
  emin prec emax <= e ->
  exists p,
    shr_m (fst (shr_fexp prec emax (Z.pos m) e l)) = Z.pos p /\
    Z.pos (digits2_pos p) + snd (shr_fexp prec emax (Z.pos m) e l)
    = Z.pos (digits2_pos m) + e /\
    snd (shr_fexp prec emax (Z.pos m) e l)
    = Z.max e (fexp prec emax (Z.pos (digits2_pos m) + e)).
Proof.
  intros He.
  destruct (shr_fexp_spec (Z.pos m) e l ltac:(lia)) as [H1 H2].
  cbn [Zdigits2] in H1, H2.
  set (M := Z.pos (digits2_pos m) + e) in *.
  set (n := Z.max (fexp prec emax M - e) 0) in *.
  assert (Hb := fexp_below M ltac:(unfold M; lia)).
  destruct (digits_div m n ltac:(unfold n, M in *; lia)) as (p & Hp & Hd).
  exists p. rewrite H1, H2. repeat split.
  - exact Hp.
  - rewrite Hd. unfold M. lia.
  - unfold n. lia.
Qed.

Lemma binary_round_magnitude (m : positive) (e : Z) :
  emin prec emax <= e ->
  binary_round prec emax false m e = S754_infinity false \/
  exists m' e',
    binary_round prec emax false m e = S754_finite false m' e' /\
    emin prec emax <= e' /\
    Z.pos (digits2_pos m) + e <= Z.pos (digits2_pos m') + e'.
Proof.
  intros He. unfold binary_round.
  set (M := Z.pos (digits2_pos m) + e).
  destruct (shl_align_spec m e (fexp prec emax M)) as [Hz He'].
  destruct (shl_align m e (fexp prec emax M)) as [mz ez]. cbn [fst snd] in Hz, He'.
  assert (Hez : emin prec emax <= ez)
    by (rewrite He'; unfold fexp; lia).
  assert (Hdz : Z.pos (digits2_pos mz) + ez = M).
  { rewrite (digits_shift m mz (e - Z.min e (fexp prec emax M)));
      [rewrite He'; subst M; lia | lia | exact Hz]. }
  unfold binary_round_aux.
  destruct (shr_fexp_positive mz ez loc_Exact Hez) as (p1 & H1 & H1d & H1e).
  destruct (shr_fexp prec emax (Z.pos mz) ez loc_Exact) as [mrs1 e1].
  cbn [fst snd] in H1, H1d, H1e. rewrite H1.
  assert (He1 : emin prec emax <= e1) by lia.
  set (m2 := round_nearest_even (Z.pos p1) (loc_of_shr_record mrs1)).
  assert (H2 : exists p2, m2 = Z.pos p2 /\ (p1 <= p2)%positive).
  { unfold m2.
    destruct (round_nearest_even_cases (Z.pos p1) (loc_of_shr_record mrs1))
      as [-> | ->].
    - exists p1. split; [reflexivity | lia].
    - exists (p1 + 1)%positive. split; [reflexivity | lia]. }
  destruct H2 as (p2 & -> & Hle).
  apply digits_mono in Hle.
  destruct (shr_fexp_positive p2 e1 loc_Exact He1) as (p3 & H3 & H3d & H3e).
  destruct (shr_fexp prec emax (Z.pos p2) e1 loc_Exact) as [mrs3 e3].
  cbn [fst snd] in H3, H3d, H3e. rewrite H3.
  destruct (e3 <=? emax - prec); [right | left; reflexivity].
  exists p3, e3. split; [reflexivity|]. split; lia.
Qed.

Lemma add_finite (m1 m2 : positive) (e1 e2 : Z) :
  emin prec emax <= e1 -> emin prec emax <= e2 ->
  add (S754_finite false m1 e1) (S754_finite false m2 e2) = Infinity \/
  exists m e,
    add (S754_finite false m1 e1) (S754_finite false m2 e2)
    = S754_finite false m e /\
    emin prec emax <= e /\
    Z.pos (digits2_pos m1) + e1 <= Z.pos (digits2_pos m) + e /\
    Z.pos (digits2_pos m2) + e2 <= Z.pos (digits2_pos m) + e.
Proof.
  intros H1 H2. unfold add, SFadd. cbn [cond_Zopp].
  set (ez := Z.min e1 e2).
  destruct (shl_align_spec m1 e1 ez) as [Ha _].
  destruct (shl_align_spec m2 e2 ez) as [Hb _].
  set (a := fst (shl_align m1 e1 ez)) in *.
  set (b := fst (shl_align m2 e2 ez)) in *.
  replace (Z.min e1 ez) with ez in Ha by (unfold ez; lia).
  replace (Z.min e2 ez) with ez in Hb by (unfold ez; lia).
  assert (Da := digits_shift m1 a (e1 - ez) ltac:(unfold ez; lia) Ha).
  assert (Db := digits_shift m2 b (e2 - ez) ltac:(unfold ez; lia) Hb).
  change (Z.pos a + Z.pos b) with (Z.pos (a + b)). cbn [binary_normalize].
  assert (La := digits_mono a (a + b) ltac:(lia)).
  assert (Lb := digits_mono b (a + b) ltac:(lia)).
  destruct (binary_round_magnitude (a + b) ez ltac:(unfold ez; lia))
    as [-> | (m & e & -> & He & Hm)]; [left; reflexivity | right].
  exists m, e. split; [reflexivity|]. lia.
Qed.

Lemma bounded_emin (m : positive) (e : Z) :
  bounded prec emax m e = true -> emin prec emax <= e.
Proof.
  unfold bounded, canonical_mantissa. intros H.
  apply andb_prop in H. destruct H as [H _].
  apply Z.eqb_eq in H. unfold fexp in H. lia.
Qed.

Lemma ratio_ok_cases (x : number) :
  Money.ratio_ok x = true ->
  (exists s, x = S754_zero s) \/
  exists m e, x = S754_finite false m e /\ emin prec emax <= e.
Proof.
  unfold Money.ratio_ok, valid, valid_binary. intros H.
  apply andb_prop in H. destruct H as [H Hn].
  apply andb_prop in H. destruct H as [Hv Hf].
  destruct x as [s| | |s m e]; try discriminate.
  - left. eauto.
  - right. destruct s; [discriminate|].
    exists m, e. split; [reflexivity | apply (bounded_emin m e), Hv].
Qed.

(** One step of the sum. *)
Lemma add_step (t x : number) :
  nonneg_sum t -> Money.ratio_ok x = true ->
  nonneg_sum (add t x) /\ dominates (add t x) x /\
  forall r, dominates t r -> dominates (add t x) r.
Proof.
  intros Ht Hx.
  destruct (ratio_ok_cases x Hx) as [[s ->] | (m & e & -> & He)];
    destruct Ht as [-> | [-> | (mt & et & -> & Het)]].
  - replace (add pos_zero (S754_zero s)) with pos_zero
      by (destruct s; reflexivity).
    repeat split; [left; reflexivity | auto].
  - change (add Infinity (S754_zero s)) with Infinity.
    repeat split; [right; left; reflexivity | auto].
  - change (add (S754_finite false mt et) (S754_zero s))
      with (S754_finite false mt et).
    repeat split; [right; right; eauto | auto].
  - change (add pos_zero (S754_finite false m e)) with (S754_finite false m e).
    repeat split.
    + right; right; eauto.
    + cbn [dominates]. right. exists m, e. split; [reflexivity | lia].
    + intros r Hr. destruct r; cbn [dominates] in *; auto.
      destruct Hr as [Hr | (? & ? & Hr & _)]; discriminate.
  - change (add Infinity (S754_finite false m e)) with Infinity.
    repeat split.
    + right; left; reflexivity.
    + cbn [dominates]. left. reflexivity.
    + intros r _. destruct r; cbn [dominates]; auto.
  - destruct (add_finite mt m et e Het He)
      as [-> | (m' & e' & -> & He' & Ht' & Hx')].
    + repeat split.
      * right; left; reflexivity.
      * cbn [dominates]. left. reflexivity.
      * intros r _. destruct r; cbn [dominates]; auto.
    + repeat split.
      * right; right; eauto.
      * cbn [dominates]. right. exists m', e'. split; [reflexivity | lia].
      * intros r Hr. destruct r as [| | |s0 m0 e0]; cbn [dominates] in *; auto.
        destruct Hr as [Hr | (m1 & e1 & Hr & Hle)]; [discriminate|].
        injection Hr as <- <-.
        right. exists m', e'. split; [reflexivity | lia].
Qed.

Lemma sum_dominates (ratios : list number) :
  Forall (fun r => Money.ratio_ok r = true) ratios ->
  forall acc,
    nonneg_sum acc ->
    nonneg_sum (fold_left add ratios acc) /\
    Forall (dominates (fold_left add ratios acc)) ratios /\
    forall r, dominates acc r -> dominates (fold_left add ratios acc) r.
Proof.
  induction 1 as [|x ratios Hx _ IH]; intros acc Hacc; cbn [dominates].
  - repeat split; auto.
  - destruct (add_step acc x Hacc Hx) as (Hs & Hd & Hk).
    destruct (IH (add acc x) Hs) as (Hs' & Hd' & Hk').
    repeat split; auto.
Qed.

(** With ratios that are finite and not negative, and a positive total,
    every quotient [ratio / total] is a finite Number. *)
Lemma quotients_finite (ratios : list number) :
  Forall (fun r => Money.ratio_ok r = true) ratios ->
  is_positive (Money.total_of ratios) = true ->
  Forall (fun r => isFinite (div r (Money.total_of ratios)) = true) ratios.
Proof.
  intros Hr Hpos. unfold Money.total_of in *.
  destruct (sum_dominates ratios Hr (of_Z 0)) as (Hs & Hd & _).
  { left. reflexivity. }
  set (t := fold_left add ratios (of_Z 0)) in *.
  rewrite Forall_forall in *. intros r Hin.
  specialize (Hd r Hin). specialize (Hr r Hin).
  destruct (ratio_ok_cases r Hr) as [[s ->] | (m & e & -> & He)].
  - destruct Hs as [E | [E | (mt & et & E & _)]]; rewrite E in *.
    + discriminate.
    + reflexivity.
    + reflexivity.
  - cbn [dominates] in Hd. destruct Hd as [-> | (mt & et & -> & Hle)].
    + reflexivity.
    + apply div_finite, Hle.
Qed.

End NumberFacts.

(** ** The operations of [money.js] *)

Section MoneyFacts.

Import Money.

Variable normalise : string -> string.
Variable maximumFractionDigits : string -> value.
Variable forexService : string -> string -> promise value.

Local Abbreviation new := (Money.new normalise).
Local Abbreviation new1 := (Money.new1 normalise).
Local Abbreviation plus := (Money.plus normalise).
Local Abbreviation minus := (Money.minus normalise).
Local Abbreviation times := (Money.times normalise).
Local Abbreviation round := (Money.round normalise maximumFractionDigits).
Local Abbreviation allocate := (Money.allocate normalise maximumFractionDigits).
Local Abbreviation share_of := (Money.share_of normalise maximumFractionDigits).
Local Abbreviation map_shares := (Money.map_shares normalise maximumFractionDigits).
Local Abbreviation to := (Money.to normalise forexService).
Local Abbreviation to_callback := (Money.to_callback normalise).
Local Abbreviation produced := (Money.produced normalise maximumFractionDigits forexService).
Local Abbreviation valid_precision := (Money.valid_precision maximumFractionDigits).
Local Abbreviation sum := (Money.sum normalise).
Local Abbreviation sum_from := (Money.sum_from normalise).
Local Notation "'valid_currency' m" :=
  (iso4217_test (currency m) = true) (at level 10, m at level 9).

(** *** The constructor *)

Lemma new_big (b : Decimal.t) (c : string) :
  iso4217_test c = true -> new (VBig b) c = Return (mkMoney b c true).
Proof. intros H. unfold Money.new. simpl. rewrite H. reflexivity. Qed.

Lemma new_returns (a : value) (c : string) (m : Money) :
  new a c = Return m ->
  iso4217_test c = true /\ currency m = c /\ frozen m = true.
Proof.
  unfold Money.new, bind.
  destruct (Big.new _); [|discriminate].
  destruct (iso4217_test c); simpl; [|discriminate].
  intros [= <-]. auto.
Qed.

Lemma new_invalid_currency (a : value) (c : string) :
  iso4217_test c = false -> exists e, new a c = Throw e.
Proof.
  intros H. unfold Money.new, bind.
  destruct (Big.new _); rewrite ?H; simpl; eauto.
Qed.

(** *** Arithmetic and rounding on a Money with a valid currency *)

Lemma plus_returns (x y : Money) :
  valid_currency x -> currency x = currency y ->
  plus x y =
  Return (mkMoney (Decimal.plus (amount x) (amount y)) (currency x) true).
Proof.
  intros Hx Hc. unfold Money.plus.
  rewrite <- Hc, String.eqb_refl. simpl. apply new_big, Hx.
Qed.

Lemma minus_returns (x y : Money) :
  valid_currency x -> currency x = currency y ->
  minus x y =
  Return (mkMoney (Decimal.minus (amount x) (amount y)) (currency x) true).
Proof.
  intros Hx Hc. unfold Money.minus.
  rewrite <- Hc, String.eqb_refl. simpl. apply new_big, Hx.
Qed.

Lemma places_integer (v : value) (d : nat) :
  places v = Some d -> Number_isInteger v = true.
Proof.
  destruct v; simpl; try discriminate.
  unfold Number.isInteger. destruct (Number.to_Z n); [auto | discriminate].
Qed.

Lemma big_round_places (x : Decimal.t) (v : value) (d : nat) :
  places v = Some d ->
  Big.round x v roundingMode = Return (Decimal.round x d roundingMode).
Proof.
  destruct v; simpl; try discriminate.
  unfold Big.round. destruct (Number.to_Z n); [|discriminate].
  destruct ((0 <=? z) && (z <=? Big.MAX_DP)); [|discriminate].
  intros [= <-]. reflexivity.
Qed.

Lemma round_returns (m : Money) (p : value) (d : nat) :
  valid_currency m -> valid_precision m p d ->
  round m p =
  Return (mkMoney (Decimal.round (amount m) d roundingMode) (currency m) true).
Proof.
  intros Hc Hp. unfold Money.round.
  destruct p; unfold Money.valid_precision in Hp;
    try (cbn in Hp; discriminate).
  - simpl. unfold precision. rewrite (big_round_places _ _ _ Hp). simpl.
    apply new_big, Hc.
  - rewrite (places_integer _ _ Hp), andb_false_r.
    rewrite (big_round_places _ _ _ Hp). simpl. apply new_big, Hc.
Qed.

(** *** The invariant of Money objects *)

(** Case analysis on a call that returned. *)
Ltac returned H :=
  repeat match type of H with
  | bind ?c _ = Return _ =>
      let E := fresh "E" in
      destruct c eqn:E; simpl in H; [|discriminate H]
  | (if ?b then _ else _) = Return _ =>
      let E := fresh "E" in
      destruct b eqn:E; try discriminate H
  | (let '(_, _) := ?p in _) = Return _ => destruct p
  end.

Lemma round_sealed (m r : Money) (p : value) :
  round m p = Return r ->
  iso4217_test (currency r) = true /\ frozen r = true.
Proof.
  unfold Money.round. intros H. returned H.
  apply new_returns in H. destruct H as (H1 & H2 & H3). rewrite H2. auto.
Qed.

Lemma plus_sealed (x y r : Money) :
  plus x y = Return r ->
  iso4217_test (currency r) = true /\ frozen r = true.
Proof.
  unfold Money.plus. intros H. returned H.
  apply new_returns in H. destruct H as (H1 & H2 & H3). rewrite H2. auto.
Qed.

Lemma map_shares_sealed (amount : Money) (total : number) (p : value)
  (ratios : list number) :
  forall remainder shares remainder',
  map_shares amount total p ratios remainder = Return (shares, remainder') ->
  Forall (fun s => iso4217_test (currency s) = true /\ frozen s = true) shares.
Proof.
  induction ratios as [|ratio ratios IH]; simpl; intros remainder shares r' H.
  - injection H as <- <-. constructor.
  - unfold Money.share_of in H. returned H. returned E.
    injection E as <- _. injection H as <- <-. constructor.
    + eapply round_sealed; eassumption.
    + eapply IH; eassumption.
Qed.

Lemma allocate_sealed (m : Money) (ratios : ratios_arg) (p : value)
  (shares : list Money) :
  allocate m ratios p = Return shares ->
  Forall (fun s => iso4217_test (currency s) = true /\ frozen s = true) shares.
Proof.
  unfold Money.allocate. destruct ratios as [ratios|]; [|discriminate].
  intros H. returned H.
  - apply map_shares_sealed in E1.
    destruct l as [|first rest]; [discriminate|].
    returned H. injection H as <-.
    inversion E1; subst. constructor; [|assumption].
    eapply round_sealed; eassumption.
  - injection H as <-. eapply map_shares_sealed; eassumption.
Qed.

(** The callback of [to] either returns the converted Money or follows a
    rejected promise. *)
Lemma to_callback_spec (self : Money) (c : string) (rate : value) :
  to_callback self c rate =
  match rate with
  | VUndefined => Return (Follow (Rejected (NoRate (currency self) c)))
  | _ =>
      match (a <- Big.times (amount self) rate ;; new (VBig a) c) with
      | Return m => Return (Plain m)
      | Throw e => Return (Follow (Rejected e))
      end
  end.
Proof.
  unfold Money.to_callback, try_catch, bind.
  destruct rate; try reflexivity;
    destruct (Big.times _ _); try reflexivity;
    destruct (Money.new _ _ _); reflexivity.
Qed.

Lemma produced_sealed (m : Money) :
  produced m -> iso4217_test (currency m) = true /\ frozen m = true.
Proof.
  induction 1 as [a c m H | arg m H | x y m _ _ _ _ H | x y m _ _ _ _ H
                 | x k m _ _ H | x p m _ _ H | x ratios p shares m _ _ H Hin
                 | x c m calls _ IH H].
  - apply new_returns in H. destruct H as (H1 & H2 & H3). rewrite H2. auto.
  - destruct arg; simpl in H;
      apply new_returns in H; destruct H as (H1 & H2 & H3); rewrite H2; auto.
  - eapply plus_sealed; eassumption.
  - unfold Money.minus in H. returned H.
    apply new_returns in H. destruct H as (H1 & H2 & H3). rewrite H2. auto.
  - unfold Money.times in H. destruct k; try discriminate. returned H.
    apply new_returns in H. destruct H as (H1 & H2 & H3). rewrite H2. auto.
  - eapply round_sealed; eassumption.
  - apply allocate_sealed in H. rewrite Forall_forall in H. auto.
  - unfold Money.to in H. returned H.
    + injection H as <- _. assumption.
    + injection H as H _.
      unfold promise_then in H.
      destruct (forexService _ _) as [rate| |]; try discriminate.
      rewrite to_callback_spec in H.
      destruct rate; try discriminate;
        match type of H with
        | context [bind ?c ?k] =>
            destruct (bind c k) eqn:En; try discriminate
        end;
        injection H as <-;
        returned En;
        apply new_returns in En; destruct En as (H1 & H2 & H3);
        rewrite H2; auto.
Qed.

(** *** Rounding *)

Lemma halfway_coef (x : Decimal.t) (d : nat) (k : Z) :
  halfway x d k ->
  2 * Decimal.coef x * Decimal.pow10 d
  = (2 * k + 1) * Decimal.pow10 (Decimal.scale x).
Proof.
  intros H. unfold halfway, Decimal.toQ, Qeq, Qmult, Qplus, inject_Z in H.
  simpl in H. rewrite !Pos2Z.inj_mul, pos_pow10 in H. lia.
Qed.

(** C3. [round] rounds half to even: a Money whose amount lies exactly
    halfway between [k] and [k + 1] units of the last place kept is
    rounded to whichever of the two is even, in the same currency; and
    [Money(2.5, "JPY").round(0)] is 2 JPY, [Money(3.5, "JPY").round(0)] is
    4 JPY. *)
Theorem round_half_to_even :
  (forall (m : Money) (p : value) (d : nat) (k : Z),
      produced m -> valid_precision m p d -> halfway (amount m) d k ->
      exists r n,
        round m p = Return r /\ currency r = currency m /\
        amount r = Decimal.mk n d /\
        Z.even n = true /\ (n = k \/ n = k + 1)) /\
  (exists m,
      new (VNumber (Number.literal 25 1)) "JPY" = Return m /\
      round m (VNumber (Number.of_Z 0))
      = Return (mkMoney (Decimal.mk 2 0) "JPY" true)) /\
  (exists m,
      new (VNumber (Number.literal 35 1)) "JPY" = Return m /\
      round m (VNumber (Number.of_Z 0))
      = Return (mkMoney (Decimal.mk 4 0) "JPY" true)).
Proof.
  split; [|split].
  - intros m p d k Hm Hp Hh.
    apply produced_sealed in Hm. destruct Hm as [Hc _].
    rewrite (round_returns m p d Hc Hp).
    change roundingMode with Decimal.ROUND_HALF_EVEN.
    rewrite (round_tie _ _ _ (halfway_coef _ _ _ Hh)).
    eexists _, _. repeat split.
    + destruct (parity_cases k) as [(E & _ & _)|(E & O & _)]; rewrite E.
      * assumption.
      * rewrite Z.even_add, E. reflexivity.
    + destruct (Z.even k); auto.
  - eexists. split; vm_compute; reflexivity.
  - eexists. split; vm_compute; reflexivity.
Qed.

(** C4, amended. [round] raises a TypeError whenever the precision
    supplied is truthy and is not an integer Number; a negative integer
    is not rejected with a TypeError; and when the precision is left out
    the currency's [maximumFractionDigits], read from the localisation
    collaborator, is used in its place. *)
Theorem round_precision_check :
  (forall (m : Money) (p : value),
      truthy p = true -> Number_isInteger p = false ->
      round m p = Throw (TypeError "Precision must be an integer")) /\
  (forall (m : Money) (n : number) (z : Z),
      Number.to_Z n = Some z -> z < 0 ->
      forall message, round m (VNumber n) <> Throw (TypeError message)) /\
  (forall m : Money,
      round m VUndefined
      = (a <- Big.round (amount m) (maximumFractionDigits (currency m))
                roundingMode ;;
         new (VBig a) (currency m))) /\
  (forall (m : Money) (d : nat),
      places (maximumFractionDigits (currency m)) = Some d ->
      round m VUndefined = round m (maximumFractionDigits (currency m))).
Proof.
  repeat split.
  - intros m p Ht Hi. unfold Money.round. rewrite Ht, Hi. reflexivity.
  - intros m n z Hz Hneg message. unfold Money.round.
    unfold Number_isInteger, Number.isInteger. rewrite Hz, andb_false_r.
    unfold Big.round. rewrite Hz.
    replace (0 <=? z) with false by (symmetry; apply Z.leb_gt; assumption).
    simpl. discriminate.
  - intros m d Hd. unfold Money.round at 2.
    rewrite (places_integer _ _ Hd), andb_false_r.
    destruct (maximumFractionDigits (currency m)) eqn:E;
      try (cbn in Hd; discriminate).
    unfold Money.round, precision. simpl. rewrite E. reflexivity.
Qed.

(** *** Arithmetic and comparison *)

Lemma string_neq (a b : string) : a <> b -> String.eqb a b = false.
Proof. intros H. apply String.eqb_neq, H. Qed.

(** C5. For Money [x] and [y] of one currency, [x.plus(y).minus(y)]
    equals [x]: [plus] and [minus] return, in the shared currency, the
    exact sum and the exact difference of the amounts. *)
Theorem plus_minus_exact (x y : Money) :
  produced x -> produced y -> currency x = currency y ->
  exists s d,
    plus x y = Return s /\ minus s y = Return d /\
    Money.eq d x = Return true /\
    currency s = currency x /\ currency d = currency x /\
    (Decimal.toQ (amount s)
     == Decimal.toQ (amount x) + Decimal.toQ (amount y))%Q /\
    (Decimal.toQ (amount d)
     == Decimal.toQ (amount s) - Decimal.toQ (amount y))%Q.
Proof.
  intros Hx Hy Hc.
  apply produced_sealed in Hx. destruct Hx as [Hx _].
  rewrite (plus_returns x y Hx Hc).
  eexists _, _. split; [reflexivity|].
  rewrite minus_returns by (simpl; assumption). split; [reflexivity|].
  simpl. repeat split.
  - unfold Money.eq, Money.compare. simpl.
    rewrite String.eqb_refl. simpl.
    replace (Decimal.cmp _ _) with 0; [reflexivity|].
    symmetry. apply cmp_eq_iff.
    rewrite toQ_minus, toQ_plus. ring.
  - apply toQ_plus.
  - apply toQ_minus.
Qed.

(** C6. For Money of differing currencies, [plus], [minus] and [compare]
    raise the currency-mismatch error, [eq] returns false and [ne] returns
    true. *)
Theorem currency_mismatch (x y : Money) :
  currency x <> currency y ->
  plus x y = Throw CurrencyMismatch /\
  minus x y = Throw CurrencyMismatch /\
  Money.compare x y = Throw CurrencyMismatch /\
  Money.eq x y = Return false /\
  Money.ne x y = Return true.
Proof.
  intros H. apply string_neq in H.
  unfold Money.plus, Money.minus, Money.compare, Money.eq, Money.ne.
  rewrite H. simpl. repeat split.
Qed.

(** *** Conversion *)

(** C8. [m.to(c)] with [c] the currency of [m] is a promise fulfilled with
    [m] itself; the rate collaborator is not called, and [c] is not
    validated. *)
Theorem to_same_currency (m : Money) :
  to m (currency m) = Return (Fulfilled m, []).
Proof. unfold Money.to. rewrite String.eqb_refl. reflexivity. Qed.

(** C7. [to] never raises: it returns a promise.  For an invalid target
    currency the promise is rejected with the invalid-currency error and
    the rate collaborator is not called; for a rate that resolves to
    [undefined] it is rejected with the no-rate error naming both
    currencies; and an error raised while the converted Money is built
    rejects the promise. *)
Theorem to_rejects (m : Money) (c : string) :
  (exists p calls, to m c = Return (p, calls)) /\
  (produced m -> iso4217_test c = false ->
   to m c = Return (Rejected (InvalidCurrency c), [])) /\
  (currency m <> c -> iso4217_test c = true ->
   forexService (currency m) c = Fulfilled VUndefined ->
   to m c = Return (Rejected (NoRate (currency m) c), [(currency m, c)])) /\
  (forall (rate : value) (e : exn),
      currency m <> c -> iso4217_test c = true ->
      forexService (currency m) c = Fulfilled rate ->
      rate <> VUndefined ->
      (a <- Big.times (amount m) rate ;; new (VBig a) c) = Throw e ->
      to m c = Return (Rejected e, [(currency m, c)])).
Proof.
  repeat split.
  - unfold Money.to.
    destruct (String.eqb _ _); [eauto|].
    destruct (iso4217_test c); simpl; eauto.
  - intros Hm Hc. unfold Money.to.
    destruct (String.eqb_spec (currency m) c) as [E|_].
    + apply produced_sealed in Hm. destruct Hm as [Hm _].
      rewrite E, Hc in Hm. discriminate.
    + rewrite Hc. reflexivity.
  - intros Hn Hc Hr. unfold Money.to.
    rewrite (string_neq _ _ Hn), Hc, Hr. reflexivity.
  - intros rate e Hn Hc Hr Hu He. unfold Money.to.
    rewrite (string_neq _ _ Hn), Hc, Hr. simpl.
    rewrite to_callback_spec, He.
    destruct rate; try reflexivity. contradiction.
Qed.

(** *** Construction *)

(** C9, amended. Every Money the constructor or an operation returns has
    a currency matching the ISO-4217 pattern, and is frozen: an assignment
    to its [amount] or [currency] leaves it as it was.  Construction with a
    currency code that does not match always fails, and when the amount is
    one big.js accepts it fails with the invalid-currency error naming the
    code. *)
Theorem money_invariant :
  (forall m : Money,
      produced m ->
      iso4217_test (currency m) = true /\
      forall (a : Decimal.t) (c : string),
        set_amount m a = m /\ set_currency m c = m) /\
  (forall (a : value) (c : string),
      iso4217_test c = false ->
      (exists e, new a c = Throw e) /\
      forall b,
        Big.new (match a with VString s => VString (normalise s) | _ => a end)
        = Return b ->
        new a c = Throw (InvalidCurrency c)).
Proof.
  split.
  - intros m Hm. apply produced_sealed in Hm. destruct Hm as [Hc Hf].
    split; [assumption|]. intros a c.
    unfold set_amount, set_currency. rewrite Hf. auto.
  - intros a c Hc. split.
    + apply new_invalid_currency, Hc.
    + intros b Hb. unfold Money.new. rewrite Hb. simpl. rewrite Hc.
      reflexivity.
Qed.

(** *** Allocation *)

Lemma decimal_of_finite (x : number) :
  Number.isFinite x = true ->
  exists f, decimal_of_number x = Some f.
Proof.
  destruct x; simpl; try discriminate; intros _; eauto.
  destruct (Number.shortest m e). eauto.
Qed.

Lemma decimal_of_infinite (x : number) :
  Number.isFinite x = false -> decimal_of_number x = None.
Proof. destruct x; simpl; try discriminate; reflexivity. Qed.

Lemma times_returns (a : Money) (x : number) (f : Decimal.t) :
  valid_currency a -> decimal_of_number x = Some f ->
  times a (VNumber x)
  = Return (mkMoney (Decimal.times (amount a) f) (currency a) true).
Proof.
  intros Hc Hx. unfold Money.times, Big.times. simpl. rewrite Hx. simpl.
  apply new_big, Hc.
Qed.

Lemma times_throws (a : Money) (x : number) :
  decimal_of_number x = None ->
  times a (VNumber x) = Throw (BigError InvalidNumber).
Proof.
  intros Hx. unfold Money.times, Big.times. simpl. rewrite Hx. reflexivity.
Qed.

(** The remainder after the shares [l] have been taken from [a]. *)
Local Abbreviation rem_after a l :=
  (fold_left (fun acc s => Decimal.minus acc (amount s)) l a).

Lemma share_of_returns (a rem : Money) (total : number) (p : value) (d : nat)
  (r : number) :
  valid_currency a -> currency rem = currency a -> valid_precision a p d ->
  Number.isFinite (Number.div r total) = true ->
  share_of a total p r rem
  = Return (provisional a total d r,
            mkMoney (Decimal.minus (amount rem)
                       (amount (provisional a total d r)))
                    (currency a) true).
Proof.
  intros Hc Hr Hp Hf. unfold Money.share_of, provisional, quotient.
  destruct (decimal_of_finite _ Hf) as [f Ef]. rewrite Ef.
  rewrite (times_returns a _ f Hc Ef). simpl.
  rewrite (round_returns _ p d) by (simpl; auto). simpl.
  rewrite minus_returns by (simpl; congruence). simpl.
  rewrite Hr. reflexivity.
Qed.

Lemma map_shares_returns (a : Money) (total : number) (p : value) (d : nat)
  (ratios : list number) :
  valid_currency a -> valid_precision a p d ->
  Forall (fun r => Number.isFinite (Number.div r total) = true) ratios ->
  forall rem : Money,
    currency rem = currency a -> frozen rem = true ->
    map_shares a total p ratios rem
    = Return (map (provisional a total d) ratios,
              mkMoney (rem_after (amount rem)
                         (map (provisional a total d) ratios))
                      (currency a) true).
Proof.
  intros Hc Hp Hf. induction Hf as [|r ratios Hr _ IH]; intros rem Hrc Hrf.
  - simpl. destruct rem; simpl in *. subst. reflexivity.
  - simpl. rewrite (share_of_returns a rem total p d r) by assumption. simpl.
    rewrite IH by reflexivity. reflexivity.
Qed.

(** The first failure of the callback ends [map]. *)
Lemma map_shares_throws (a : Money) (total : number) (p : value)
  (r : number) (ratios : list number) (rem : Money) :
  Number.isFinite (Number.div r total) = false ->
  map_shares a total p (r :: ratios) rem = Throw (BigError InvalidNumber).
Proof.
  intros Hf. simpl. unfold Money.share_of.
  rewrite times_throws by (apply decimal_of_infinite, Hf). reflexivity.
Qed.

Lemma bind_Return {A B : Type} (a : A) (k : A -> completion B) :
  bind (Return a) k = k a.
Proof. reflexivity. Qed.

Lemma allocate_nonempty (m : Money) (p : value) (r : number)
  (ratios : list number) :
  allocate m (Array (r :: ratios)) p
  = (amount <- round m p ;;
     '(shares, remainder) <-
       map_shares amount (total_of (r :: ratios)) p (r :: ratios) amount ;;
     if isNotZero remainder then
       match shares with
       | first :: rest =>
           sum <- plus first remainder ;;
           first <- round sum p ;;
           Return (first :: rest)
       | [] => Throw (TypeError "Cannot read properties of undefined")
       end
     else Return shares).
Proof. reflexivity. Qed.

(** What [allocate] returns when every quotient [ratio / total] is a
    finite Number. *)
Lemma allocate_returns (m : Money) (p : value) (d : nat) (r : number)
  (ratios : list number) :
  valid_currency m -> valid_precision m p d ->
  let total := total_of (r :: ratios) in
  let a := mkMoney (Decimal.round (amount m) d roundingMode) (currency m) true in
  let shares := map (provisional a total d) (r :: ratios) in
  let rem := rem_after (amount a) shares in
  Forall (fun r => Number.isFinite (Number.div r total) = true) (r :: ratios) ->
  round m p = Return a /\
  allocate m (Array (r :: ratios)) p
  = Return
      ((if negb (Decimal.cmp rem zero =? 0)
        then mkMoney
               (Decimal.round
                  (Decimal.plus (amount (provisional a total d r)) rem)
                  d roundingMode)
               (currency m) true
        else provisional a total d r)
         :: map (provisional a total d) ratios).
Proof.
  intros Hc Hp total a shares rem Hf.
  assert (Ha : round m p = Return a) by (apply round_returns; assumption).
  split; [assumption|].
  rewrite allocate_nonempty, Ha, bind_Return. fold total.
  rewrite (map_shares_returns a total p d (r :: ratios)); auto.
  rewrite bind_Return. unfold isNotZero. cbn [amount]. fold shares. fold rem.
  destruct (Decimal.cmp rem zero =? 0); cbn [negb]; [reflexivity|].
  unfold shares. cbn [map]. rewrite plus_returns by (simpl; auto).
  rewrite bind_Return.
  rewrite (round_returns _ p d) by (simpl; auto).
  reflexivity.
Qed.

Lemma rem_after_value (l : list Money) :
  forall a : Decimal.t,
    (Decimal.toQ (rem_after a l) == Decimal.toQ a - total_value l)%Q.
Proof.
  induction l as [|s l IH]; intros a; simpl.
  - ring.
  - rewrite IH, toQ_minus. ring.
Qed.

Lemma rem_after_scale (d : nat) (l : list Money) :
  Forall (fun s => (Decimal.scale (amount s) <= d)%nat) l ->
  forall a : Decimal.t,
    (Decimal.scale a <= d)%nat -> (Decimal.scale (rem_after a l) <= d)%nat.
Proof.
  induction 1 as [|s l Hs _ IH]; intros a Ha; simpl; [assumption|].
  apply IH. rewrite minus_scale. lia.
Qed.

Lemma provisional_scales (a : Money) (total : number) (d : nat)
  (ratios : list number) :
  Forall (fun s => (Decimal.scale (amount s) <= d)%nat)
         (map (provisional a total d) ratios).
Proof.
  induction ratios; simpl; constructor; [apply round_scale | assumption].
Qed.

Lemma provisional_currencies (a : Money) (total : number) (d : nat)
  (ratios : list number) :
  Forall (fun s => currency s = currency a)
         (map (provisional a total d) ratios).
Proof. induction ratios; simpl; constructor; auto. Qed.

(** Adding up a list of Money of one valid currency. *)
Lemma sum_from_value (l : list Money) :
  forall acc : Money,
    valid_currency acc ->
    Forall (fun s => currency s = currency acc) l ->
    exists total,
      sum_from acc l = Return total /\ currency total = currency acc /\
      (Decimal.toQ (amount total)
       == Decimal.toQ (amount acc) + total_value l)%Q.
Proof.
  induction l as [|s l IH]; intros acc Hc Hl; simpl.
  - exists acc. repeat split. ring.
  - inversion Hl as [|? ? Hs Hl']; subst.
    rewrite plus_returns by auto. rewrite bind_Return.
    destruct (IH (mkMoney (Decimal.plus (amount acc) (amount s))
                          (currency acc) true))
      as (total & Ht & Htc & Htv); [assumption | assumption |].
    exists total. repeat split; [assumption | assumption |].
    rewrite Htv. simpl. rewrite toQ_plus. ring.
Qed.

(** Allocation is exact whenever every quotient [ratio / total] is a
    finite Number: the shares are the provisional shares, the first one
    increased by what the others and it leave of the rounded amount, and
    they add up to the rounded amount. *)
Lemma allocate_exact (m : Money) (p : value) (d : nat) (r : number)
  (ratios : list number) :
  valid_currency m -> valid_precision m p d ->
  let total := total_of (r :: ratios) in
  Forall (fun r => Number.isFinite (Number.div r total) = true) (r :: ratios) ->
  exists (a first total' : Money),
    round m p = Return a /\
    allocate m (Array (r :: ratios)) p
    = Return (first :: map (provisional a total d) ratios) /\
    currency first = currency m /\
    (Decimal.toQ (amount first)
     == Decimal.toQ (amount (provisional a total d r))
        + (Decimal.toQ (amount a)
           - total_value (map (provisional a total d) (r :: ratios))))%Q /\
    sum (first :: map (provisional a total d) ratios) = Return total' /\
    Money.eq total' a = Return true.
Proof.
  intros Hc Hp total Hf.
  destruct (allocate_returns m p d r ratios Hc Hp Hf) as [Ha Hs].
  fold total in Hs.
  set (a := mkMoney (Decimal.round (amount m) d roundingMode)
                    (currency m) true) in *.
  set (shares := map (provisional a total d) (r :: ratios)) in *.
  set (rem := rem_after (amount a) shares) in *.
  set (first := if negb (Decimal.cmp rem zero =? 0) then _ else _) in Hs.
  assert (Hrem : (Decimal.toQ rem
                  == Decimal.toQ (amount a) - total_value shares)%Q)
    by apply rem_after_value.
  assert (Hscale : (Decimal.scale rem <= d)%nat).
  { apply rem_after_scale; [apply provisional_scales | apply round_scale]. }
  assert (Hfc : currency first = currency m).
  { unfold first. destruct (negb _); reflexivity. }
  assert (Hfv : (Decimal.toQ (amount first)
                 == Decimal.toQ (amount (provisional a total d r))
                    + Decimal.toQ rem)%Q).
  { unfold first. destruct (Decimal.cmp rem zero =? 0) eqn:E; cbn [negb].
    - apply Z.eqb_eq, cmp_eq_iff in E. rewrite E.
      unfold zero, Decimal.zero, Decimal.toQ. simpl. ring.
    - cbn [amount]. rewrite round_id, toQ_plus; [reflexivity|].
      rewrite plus_scale. simpl. pose proof (round_scale
        (Decimal.times (Decimal.round (amount m) d roundingMode)
                       (quotient total r)) d roundingMode). lia. }
  destruct (sum_from_value (map (provisional a total d) ratios) first)
    as (total' & Ht & Htc & Htv).
  { rewrite Hfc. assumption. }
  { rewrite Hfc. apply (provisional_currencies a). }
  exists a, first, total'. repeat split; try assumption.
  - rewrite Hfv, Hrem. reflexivity.
  - unfold Money.eq, Money.compare. rewrite Htc, Hfc. simpl.
    rewrite String.eqb_refl. simpl.
    replace (Decimal.cmp _ _) with 0; [reflexivity|].
    symmetry. apply cmp_eq_iff.
    rewrite Htv, Hfv, Hrem. unfold shares. simpl. ring.
Qed.

(** [map] stops at the first quotient that is not a finite Number, with
    the error big.js raises for it. *)
Lemma map_shares_not_finite (a : Money) (total : number) (p : value)
  (d : nat) (ratios : list number) :
  valid_currency a -> valid_precision a p d ->
  Exists (fun r => Number.isFinite (Number.div r total) = false) ratios ->
  forall rem : Money,
    currency rem = currency a ->
    map_shares a total p ratios rem = Throw (BigError InvalidNumber).
Proof.
  intros Hc Hp. induction ratios as [|r ratios IH]; intros He rem Hr.
  - inversion He.
  - destruct (Number.isFinite (Number.div r total)) eqn:Hf.
    + inversion He as [? ? H|? ? H]; subst; [congruence|].
      cbn [Money.map_shares].
      rewrite (share_of_returns a rem total p d r) by assumption.
      rewrite bind_Return. cbv beta iota.
      rewrite IH by auto. reflexivity.
    + apply map_shares_throws, Hf.
Qed.

Lemma div_by_zero (r total : number) :
  Number.is_zero total = true ->
  Number.isFinite (Number.div r total) = false.
Proof.
  destruct total; try discriminate. intros _. destruct r; reflexivity.
Qed.

(** C2, amended. [allocate] with a non-empty array of ratios whose sum is
    zero fails: once the amount has been rounded, the first multiplication
    by a quotient [ratio / 0] raises the invalid-number error of big.js,
    the error an invalid amount raises; [allocate] has no check of the
    total and no error of its own for it. *)
Theorem allocate_zero_total (m : Money) (p : value) (d : nat)
  (ratios : list number) :
  produced m -> valid_precision m p d ->
  ratios <> [] -> Number.is_zero (total_of ratios) = true ->
  allocate m (Array ratios) p = Throw (BigError InvalidNumber) /\
  has_kind (BigError InvalidNumber) KInvalidAmount.
Proof.
  intros Hm Hp Hne Hz. split; [|constructor].
  apply produced_sealed in Hm. destruct Hm as [Hc _].
  destruct ratios as [|r ratios]; [contradiction|].
  rewrite allocate_nonempty, (round_returns m p d Hc Hp), bind_Return.
  rewrite map_shares_throws by (apply div_by_zero, Hz). reflexivity.
Qed.

(** C10, amended. [allocate] checks of [ratios] only that it is an array
    and that it is not empty; it does not look at the sign of a ratio.
    For a non-empty array it returns the shares exactly when every
    quotient [ratio / total] is a finite Number, and otherwise raises the
    invalid-number error of big.js. *)
Theorem allocate_argument_checks :
  (forall (m : Money) (v p : value),
      allocate m (NotArray v) p
      = Throw (TypeError "Money allocation needs an Array")) /\
  (forall (m : Money) (p : value),
      allocate m (Array []) p
      = Throw (TypeError "Money allocation needs a non-empty Array")) /\
  (forall (m : Money) (p : value) (d : nat) (ratios : list number),
      produced m -> valid_precision m p d -> ratios <> [] ->
      Forall (fun r => Number.isFinite (Number.div r (total_of ratios)) = true)
             ratios ->
      exists shares,
        allocate m (Array ratios) p = Return shares /\
        List.length shares = List.length ratios) /\
  (forall (m : Money) (p : value) (d : nat) (ratios : list number),
      produced m -> valid_precision m p d ->
      Exists (fun r => Number.isFinite (Number.div r (total_of ratios)) = false)
             ratios ->
      allocate m (Array ratios) p = Throw (BigError InvalidNumber)).
Proof.
  repeat split.
  - intros m p d ratios Hm Hp Hne Hf.
    apply produced_sealed in Hm. destruct Hm as [Hc _].
    destruct ratios as [|r ratios]; [contradiction|].
    destruct (allocate_exact m p d r ratios Hc Hp Hf)
      as (a & first & total' & _ & Hs & _).
    rewrite Hs. eexists. split; [reflexivity|].
    simpl. rewrite length_map. reflexivity.
  - intros m p d ratios Hm Hp He.
    apply produced_sealed in Hm. destruct Hm as [Hc _].
    destruct ratios as [|r ratios]; [inversion He|].
    rewrite allocate_nonempty, (round_returns m p d Hc Hp), bind_Return.
    rewrite (map_shares_not_finite _ _ p d); auto.
Qed.

(** C1. For a Money [m], a valid precision and a non-empty array of
    ratios that are finite and not negative and whose sum is positive,
    [allocate] returns shares that add up exactly to [m.round(p)]: as many
    shares as ratios and in their order, each in the currency of [m], each
    the provisional share of its ratio, except that the first also takes
    what the provisional shares leave of the rounded amount. *)
Theorem allocate_sums_to_rounded_amount (m : Money) (p : value) (d : nat)
  (ratios : list number) :
  produced m -> valid_precision m p d ->
  ratios <> [] ->
  Forall (fun r => ratio_ok r = true) ratios ->
  Number.is_positive (total_of ratios) = true ->
  exists (a : Money) (shares : list Money) (total' : Money),
    round m p = Return a /\
    allocate m (Array ratios) p = Return shares /\
    sum shares = Return total' /\
    Money.eq total' a = Return true /\
    List.length shares = List.length ratios /\
    Forall (fun s => currency s = currency m) shares /\
    tl shares = map (provisional a (total_of ratios) d) (tl ratios) /\
    (Decimal.toQ (amount (hd a shares))
     == Decimal.toQ
          (amount (provisional a (total_of ratios) d
                     (hd Number.pos_zero ratios)))
        + (Decimal.toQ (amount a)
           - total_value (map (provisional a (total_of ratios) d) ratios)))%Q.
Proof.
  intros Hm Hp Hne Hr Hpos.
  apply produced_sealed in Hm. destruct Hm as [Hc _].
  destruct ratios as [|r ratios]; [contradiction|].
  assert (Hf := quotients_finite _ Hr Hpos).
  destruct (allocate_exact m p d r ratios Hc Hp Hf)
    as (a & first & total' & Ha & Hs & Hfc & Hfv & Hsum & Heq).
  exists a, (first :: map (provisional a (total_of (r :: ratios)) d) ratios),
    total'.
  repeat split; try assumption.
  - simpl. rewrite length_map. reflexivity.
  - constructor; [assumption|].
    assert (Hac : currency a = currency m).
    { rewrite (round_returns m p d Hc Hp) in Ha. injection Ha as <-.
      reflexivity. }
    rewrite <- Hac. apply provisional_currencies.
Qed.

End MoneyFacts.

(** * Examples *)

Section Examples.

Import Money.
Local Open Scope string_scope.

Lemma sample_produced :
  Sample.produced Sample.usd10 /\ Sample.produced Sample.usd005 /\
  Sample.produced Sample.jpy25 /\ Sample.produced Sample.eur1.
Proof.
  repeat split.
  - apply (produced_new _ _ _ (VNumber (Number.of_Z 10)) "USD").
    vm_compute. reflexivity.
  - apply (produced_new _ _ _ (VNumber (Number.literal 5 2)) "USD").
    vm_compute. reflexivity.
  - apply (produced_new _ _ _ (VNumber (Number.literal 25 1)) "JPY").
    vm_compute. reflexivity.
  - apply (produced_new _ _ _ (VString "1") "EUR").
    vm_compute. reflexivity.
Defined.

(** [Money(0.05, "USD").allocate([3, 1])] is 0.04 USD and 0.01 USD. *)
Example allocate_3_1 :
  Sample.allocate Sample.usd005 (Array [Sample.n3; Sample.n1]) VUndefined
  = Return [mkMoney (Decimal.mk 4 2) "USD" true;
            mkMoney (Decimal.mk 1 2) "USD" true].
Proof. vm_compute. reflexivity. Qed.

(** [Money(10, "USD").allocate([1, 1, 1])] is 3.34, 3.33 and 3.33 USD:
    the first share takes the cent the provisional shares leave. *)
Example allocate_thirds :
  Sample.allocate Sample.usd10 (Array [Sample.n1; Sample.n1; Sample.n1])
    VUndefined
  = Return [mkMoney (Decimal.mk 334 2) "USD" true;
            mkMoney (Decimal.mk 333 2) "USD" true;
            mkMoney (Decimal.mk 333 2) "USD" true].
Proof. vm_compute. reflexivity. Qed.

(** [String(x)] for a few Numbers: 0.1, 1/3, 0.1 + 0.2, 1e21 and the
    smallest positive Number. *)
Example decimal_of_number_samples :
  decimal_of_number (Number.literal 1 1) = Some (Decimal.mk 1 1) /\
  decimal_of_number (Number.div Sample.n1 Sample.n3)
  = Some (Decimal.mk 3333333333333333 16) /\
  decimal_of_number (Number.add (Number.literal 1 1) (Number.literal 2 1))
  = Some (Decimal.mk 30000000000000004 17) /\
  decimal_of_number (Number.of_Z (10 ^ 21)) = Some (Decimal.mk (10 ^ 21) 0) /\
  decimal_of_number (S754_finite false 1 (-1074)) = Some (Decimal.mk 5 324).
Proof. repeat split; vm_compute; reflexivity. Qed.

(** The one-argument constructor. *)
Example new1_samples :
  new1 Sample.normalise (OfString "1.2 EUR")
  = Return (mkMoney (Decimal.mk 12 1) "EUR" true) /\
  new1 Sample.normalise (OfObject (VString "0.05") "USD")
  = Return Sample.usd005 /\
  new1 Sample.normalise (OfString "12 eur") = Throw (InvalidCurrency "eur").
Proof. repeat split; vm_compute; reflexivity. Qed.

(** *** The theorems at concrete inputs *)

Lemma allocate_sums_witness :
  Sample.produced Sample.usd005 /\
  Sample.valid_precision Sample.usd005 VUndefined 2 /\
  Forall (fun r => ratio_ok r = true) [Sample.n3; Sample.n1] /\
  Number.is_positive (total_of [Sample.n3; Sample.n1]) = true /\
  exists a shares total',
    Sample.round Sample.usd005 VUndefined = Return a /\
    Sample.allocate Sample.usd005 (Array [Sample.n3; Sample.n1]) VUndefined
    = Return shares /\
    Sample.sum shares = Return total' /\
    Money.eq total' a = Return true /\
    List.length shares = 2%nat.
Proof.
  assert (Hm : Sample.produced Sample.usd005) by apply sample_produced.
  assert (Hp : Sample.valid_precision Sample.usd005 VUndefined 2)
    by reflexivity.
  assert (Hr : Forall (fun r => ratio_ok r = true) [Sample.n3; Sample.n1])
    by (repeat constructor).
  assert (Ht : Number.is_positive (total_of [Sample.n3; Sample.n1]) = true)
    by reflexivity.
  split; [assumption|]. split; [assumption|].
  split; [assumption|]. split; [assumption|].
  destruct (allocate_sums_to_rounded_amount
              Sample.normalise Sample.maximumFractionDigits
              Sample.forexService Sample.usd005 VUndefined 2
              [Sample.n3; Sample.n1] Hm Hp ltac:(discriminate) Hr Ht)
    as (a & shares & total' & H1 & H2 & H3 & H4 & H5 & _).
  exists a, shares, total'.
  split; [|split; [|split; [|split]]]; assumption.
Defined.

Lemma allocate_zero_total_witness :
  Number.is_zero (total_of [Sample.n0; Sample.n0]) = true /\
  Sample.allocate Sample.usd10 (Array [Sample.n0; Sample.n0]) VUndefined
  = Throw (BigError InvalidNumber).
Proof.
  split; [reflexivity|].
  apply (allocate_zero_total
           Sample.normalise Sample.maximumFractionDigits Sample.forexService
           Sample.usd10 VUndefined 2 [Sample.n0; Sample.n0]).
  - apply sample_produced.
  - reflexivity.
  - discriminate.
  - reflexivity.
Defined.

Lemma round_half_to_even_witness :
  halfway (amount Sample.jpy25) 0 2 /\
  exists r n,
    Sample.round Sample.jpy25 (VNumber Sample.n0) = Return r /\
    currency r = "JPY" /\ amount r = Decimal.mk n 0 /\
    Z.even n = true /\ (n = 2 \/ n = 2 + 1).
Proof.
  assert (Hh : halfway (amount Sample.jpy25) 0 2) by reflexivity.
  split; [assumption|].
  apply (proj1 (round_half_to_even
                  Sample.normalise Sample.maximumFractionDigits
                  Sample.forexService)
               Sample.jpy25 (VNumber Sample.n0) 0%nat 2).
  - apply sample_produced.
  - reflexivity.
  - assumption.
Defined.

Lemma round_precision_check_witness :
  Sample.round Sample.usd10 (VNumber Sample.n1_5)
  = Throw (TypeError "Precision must be an integer") /\
  Sample.round Sample.usd10 (VNumber Sample.minus1)
  <> Throw (TypeError "Precision must be an integer") /\
  Sample.round Sample.usd10 VUndefined
  = Sample.round Sample.usd10 (VNumber (Number.of_Z 2)).
Proof.
  destruct (round_precision_check
              Sample.normalise Sample.maximumFractionDigits)
    as (H1 & H2 & _ & H4).
  split; [|split].
  - apply H1; reflexivity.
  - apply (H2 Sample.usd10 Sample.minus1 (-1)); [reflexivity | lia].
  - apply (H4 Sample.usd10 2%nat). reflexivity.
Defined.

Lemma plus_minus_exact_witness :
  exists s d,
    Sample.plus Sample.usd10 Sample.usd005 = Return s /\
    Sample.minus s Sample.usd005 = Return d /\
    Money.eq d Sample.usd10 = Return true.
Proof.
  destruct (plus_minus_exact
              Sample.normalise Sample.maximumFractionDigits
              Sample.forexService Sample.usd10 Sample.usd005)
    as (s & d & H1 & H2 & H3 & _).
  - apply sample_produced.
  - apply sample_produced.
  - reflexivity.
  - exists s, d. split; [|split]; assumption.
Defined.

Lemma currency_mismatch_witness :
  Sample.plus Sample.usd10 Sample.eur1 = Throw CurrencyMismatch /\
  Money.eq Sample.usd10 Sample.eur1 = Return false /\
  Money.ne Sample.usd10 Sample.eur1 = Return true.
Proof.
  destruct (currency_mismatch Sample.normalise Sample.usd10 Sample.eur1)
    as (H1 & _ & _ & H4 & H5).
  - discriminate.
  - split; [|split]; assumption.
Defined.

Lemma to_rejects_witness :
  Sample.to Sample.usd10 "eur" = Return (Rejected (InvalidCurrency "eur"), []) /\
  Sample.to Sample.usd10 "ZZZ"
  = Return (Rejected (NoRate "USD" "ZZZ"), [("USD", "ZZZ")]) /\
  Sample.to Sample.usd10 "GBP"
  = Return (Rejected (BigError InvalidNumber), [("USD", "GBP")]).
Proof.
  split; [|split].
  - apply (to_rejects Sample.normalise Sample.maximumFractionDigits
             Sample.forexService Sample.usd10 "eur").
    + apply sample_produced.
    + reflexivity.
  - apply (to_rejects Sample.normalise Sample.maximumFractionDigits
             Sample.forexService Sample.usd10 "ZZZ").
    + discriminate.
    + reflexivity.
    + reflexivity.
  - apply (proj2 (proj2 (proj2
             (to_rejects Sample.normalise Sample.maximumFractionDigits
                Sample.forexService Sample.usd10 "GBP")))
             (VString "n/a")).
    + discriminate.
    + reflexivity.
    + reflexivity.
    + discriminate.
    + reflexivity.
Defined.

Lemma money_invariant_witness :
  iso4217_test (currency Sample.usd10) = true /\
  set_amount Sample.usd10 Decimal.zero = Sample.usd10 /\
  Sample.new (VNumber Sample.n1) "usd" = Throw (InvalidCurrency "usd").
Proof.
  destruct (money_invariant Sample.normalise Sample.maximumFractionDigits
              Sample.forexService) as [H1 H2].
  destruct (H1 Sample.usd10) as [Hc Hs]; [apply sample_produced|].
  destruct (H2 (VNumber Sample.n1) "usd") as [_ Hn]; [reflexivity|].
  split; [|split].
  - exact Hc.
  - apply Hs. exact "".
  - apply (Hn (Decimal.mk 1 0)). reflexivity.
Defined.

Lemma allocate_argument_checks_witness :
  (exists shares,
      Sample.allocate Sample.usd10 (Array [Sample.n3; Sample.minus1]) VUndefined
      = Return shares /\
      List.length shares = 2%nat) /\
  Sample.allocate Sample.usd10
    (Array [Sample.huge; Sample.minus_huge; Sample.tiny]) VUndefined
  = Throw (BigError InvalidNumber).
Proof.
  destruct (allocate_argument_checks
              Sample.normalise Sample.maximumFractionDigits
              Sample.forexService) as (_ & _ & H3 & H4).
  split.
  - apply (H3 Sample.usd10 VUndefined 2%nat [Sample.n3; Sample.minus1]).
    + apply sample_produced.
    + reflexivity.
    + discriminate.
    + repeat constructor.
  - apply (H4 Sample.usd10 VUndefined 2%nat
             [Sample.huge; Sample.minus_huge; Sample.tiny]).
    + apply sample_produced.
    + reflexivity.
    + apply Exists_cons_hd. vm_compute. reflexivity.
Defined.

(** *** Where the specification and the program part *)

(** C2 as the specification states it: [Money(10, "USD").allocate([0, 0])]
    does fail, but with the invalid-number error of big.js, which is an
    InvalidAmount and not an InvalidAllocation. *)
Lemma allocate_zero_total_counterexample :
  Sample.allocate Sample.usd10 (Array [Sample.n0; Sample.n0]) VUndefined
  = Throw (BigError InvalidNumber) /\
  has_kind (BigError InvalidNumber) KInvalidAmount /\
  ~ has_kind (BigError InvalidNumber) KInvalidAllocation.
Proof.
  split; [vm_compute; reflexivity|].
  split; [constructor|]. intros H. inversion H.
Qed.

(** C4 as the specification states it: the precision [-1] is not a
    non-negative integer, yet [round(-1)] raises no TypeError; the
    precision passes the check of [round] and big.js rejects it. *)
Lemma round_negative_precision_counterexample :
  nonneg_integer (VNumber Sample.minus1) = false /\
  Sample.round Sample.usd10 (VNumber Sample.minus1)
  = Throw (BigError InvalidDecimalPlaces) /\
  ~ has_kind (BigError InvalidDecimalPlaces) KTypeError.
Proof.
  split; [reflexivity|].
  split; [vm_compute; reflexivity|]. intros H. inversion H.
Qed.

(** C9 as the specification states it: [new Money(undefined, "usd")] and
    [new Money(NaN, "usd")] have a currency code that does not match, yet
    the error is not the invalid-currency error: the amount is rejected
    first. *)
Lemma new_invalid_amount_counterexample :
  iso4217_test "usd" = false /\
  Sample.new VUndefined "usd" = Throw (BigError InvalidNumber) /\
  Sample.new (VNumber Number.NaN) "usd" = Throw (BigError InvalidNumber) /\
  BigError InvalidNumber <> InvalidCurrency "usd".
Proof.
  split; [reflexivity|]. split; [reflexivity|].
  split; [reflexivity | discriminate].
Qed.

(** C10 as the specification states it: the ratios [2**600], [-(2**600)]
    and [2**-600] are finite and their sum, [2**-600], is not zero, yet
    [allocate] raises: the first quotient overflows to [Infinity]. *)
Lemma allocate_overflow_counterexample :
  let ratios := [Sample.huge; Sample.minus_huge; Sample.tiny] in
  Forall (fun r => Number.isFinite r = true) ratios /\
  total_of ratios = Sample.tiny /\
  Number.is_zero (total_of ratios) = false /\
  Number.div Sample.huge (total_of ratios) = Number.Infinity /\
  Sample.allocate Sample.usd10 (Array ratios) VUndefined
  = Throw (BigError InvalidNumber).
Proof.
  repeat split; try (repeat constructor; fail); vm_compute; reflexivity.
Qed.

End Examples.

(** * Further properties *)

(** ** Order and rounding of exact decimals *)

Section DecimalOrder.

Import Decimal.

(** [cmp] is the order of the rationals the decimals denote. *)
Lemma cmp_compare (x y : t) :
  cmp x y = match (toQ x ?= toQ y)%Q with Lt => -1 | Eq => 0 | Gt => 1 end.
Proof.
  unfold cmp, Qcompare, toQ. simpl. rewrite !pos_pow10. reflexivity.
Qed.

Lemma cmp_antisym (x y : t) : cmp y x = - cmp x y.
Proof.
  unfold cmp. rewrite (Z.compare_antisym (coef x * pow10 (scale y))).
  destruct (coef x * pow10 (scale y) ?= coef y * pow10 (scale x));
    reflexivity.
Qed.

Lemma cmp_range (x y : t) : cmp x y = -1 \/ cmp x y = 0 \/ cmp x y = 1.
Proof. unfold cmp. destruct (_ ?= _); auto. Qed.

Lemma cmp_lt_iff (x y : t) : cmp x y < 0 <-> (toQ x < toQ y)%Q.
Proof.
  rewrite cmp_compare, Qlt_alt. destruct (toQ x ?= toQ y)%Q; split;
    intros H; try reflexivity; try discriminate; lia.
Qed.

Lemma cmp_gt_iff (x y : t) : 0 < cmp x y <-> (toQ y < toQ x)%Q.
Proof.
  rewrite <- cmp_lt_iff, (cmp_antisym y x). lia.
Qed.

(** The coefficient half-even rounding keeps is within half a unit of the
    last kept place of the decimal rounded. *)
Lemma round_coef_bound (x : t) (d : nat) :
  (d < scale x)%nat ->
  2 * Z.abs (coef (round x d ROUND_HALF_EVEN) * pow10 (scale x - d) - coef x)
  <= pow10 (scale x - d).
Proof.
  intros Hlt. unfold round.
  destruct (Nat.ltb_spec d (scale x)) as [_|]; [|lia]. cbn [coef].
  set (p := pow10 (scale x - d)).
  assert (Hp : 0 < p) by apply pow10_pos.
  assert (Hq := Z.div_mod (Z.abs (coef x)) p ltac:(lia)).
  assert (Hr := Z.mod_pos_bound (Z.abs (coef x)) p Hp).
  set (q := Z.abs (coef x) / p) in *.
  set (r := Z.abs (coef x) mod p) in *.
  rewrite more_half_even.
  destruct (Z.ltb_spec p (2 * r)) as [H1|H1]; cbn [orb].
  - destruct (Z.abs_spec (coef x)) as [[Hs Ha]|[Hs Ha]];
      destruct (Z.sgn_spec (coef x)) as [[? ->]|[[? ->]|[? ->]]]; nia.
  - destruct (Z.eqb_spec (2 * r) p) as [H2|H2]; cbn [andb];
      [destruct (Z.odd q)|];
      destruct (Z.abs_spec (coef x)) as [[Hs Ha]|[Hs Ha]];
      destruct (Z.sgn_spec (coef x)) as [[? ->]|[[? ->]|[? ->]]]; nia.
Qed.

(** Half-even rounding to [d] places moves a decimal by at most half a
    unit of the [d]-th place. *)
Lemma round_error (x : t) (d : nat) :
  (Qabs (toQ (round x d ROUND_HALF_EVEN) - toQ x)
   <= 1 # (2 * Z.to_pos (pow10 d)))%Q.
Proof.
  destruct (Nat.ltb_spec d (scale x)) as [Hlt|Hge].
  - assert (Hb := round_coef_bound x d Hlt).
    assert (Hs : scale (round x d ROUND_HALF_EVEN) = d).
    { unfold round. destruct (Nat.ltb_spec d (scale x)); [reflexivity | lia]. }
    set (n := coef (round x d ROUND_HALF_EVEN)) in *.
    assert (Hsplit := pow10_split (scale x) d ltac:(lia)).
    set (p := pow10 (scale x - d)) in *.
    assert (HD := pow10_pos d). set (D := pow10 d) in *.
    assert (Hp : 0 < p) by apply pow10_pos.
    apply Qabs_Qle_condition.
    unfold toQ, Qle, Qminus, Qplus, Qopp. cbn [Qnum Qden].
    rewrite Hs. fold n.
    rewrite !Pos2Z.inj_mul, !pos_pow10.
    replace (Z.pos (Z.to_pos D)) with D by (symmetry; apply pos_pow10).
    rewrite Hsplit. change (Z.pos 2) with 2.
    assert (HDD : 0 < D * D) by nia.
    split.
    + assert (- p <= 2 * (n * p - coef x)) by lia.
      assert (- p * (D * D) <= 2 * (n * p - coef x) * (D * D))
        by (apply Z.mul_le_mono_nonneg_r; lia).
      lia.
    + assert (2 * (n * p - coef x) <= p) by lia.
      assert (2 * (n * p - coef x) * (D * D) <= p * (D * D))
        by (apply Z.mul_le_mono_nonneg_r; lia).
      lia.
  - rewrite round_id by assumption.
    setoid_replace (toQ x - toQ x)%Q with 0%Q by ring.
    discriminate.
Qed.

(** A decimal that is a whole number of units of the [d]-th place is
    left at its value. *)
Lemma round_exact (x : t) (d : nat) (n : Z) :
  (toQ x * inject_Z (pow10 d) == inject_Z n)%Q ->
  cmp (round x d ROUND_HALF_EVEN) x = 0.
Proof.
  intros H. apply cmp_eq_iff.
  destruct (Nat.ltb_spec d (scale x)) as [Hlt|Hge].
  - unfold toQ, Qeq, Qmult, inject_Z in H. cbn [Qnum Qden] in H.
    rewrite Pos2Z.inj_mul, pos_pow10 in H.
    rewrite (pow10_split (scale x) d) in H by lia.
    assert (HD := pow10_pos d).
    set (p := pow10 (scale x - d)) in *.
    assert (Hp : 0 < p) by apply pow10_pos.
    assert (Hc : coef x = n * p) by nia.
    apply toQ_eq. unfold round.
    destruct (Nat.ltb_spec d (scale x)) as [_|]; [|lia]. cbn [coef scale].
    fold p. rewrite more_half_even.
    assert (Ha : Z.abs (coef x) = Z.abs n * p)
      by (rewrite Hc, Z.abs_mul, (Z.abs_eq p); lia).
    rewrite Ha, Z.mod_mul, Z.div_mul by lia.
    replace (p <? 2 * 0) with false by (symmetry; apply Z.ltb_ge; lia).
    replace (2 * 0 =? p) with false by (symmetry; apply Z.eqb_neq; lia).
    cbn [orb andb].
    rewrite (pow10_split (scale x) d) by lia. fold p.
    rewrite Hc, Z.sgn_mul, (Z.sgn_pos p) by lia.
    rewrite Z.mul_1_r.
    replace (Z.sgn n * Z.abs n) with n by (rewrite Z.mul_comm, Z.abs_sgn; reflexivity).
    ring.
  - rewrite round_id by assumption. reflexivity.
Qed.

(** Half-even rounding returns the whole number [n] of units of the
    [d]-th place nearest to the decimal, the even one on a tie. *)
Lemma round_nearest (x : t) (d : nat) :
  exists n : Z,
    coef (round x d ROUND_HALF_EVEN) * pow10 d
    = n * pow10 (scale (round x d ROUND_HALF_EVEN)) /\
    2 * Z.abs (n * pow10 (scale x) - coef x * pow10 d) <= pow10 (scale x) /\
    (2 * Z.abs (n * pow10 (scale x) - coef x * pow10 d) = pow10 (scale x) ->
     Z.even n = true).
Proof.
  assert (HD := pow10_pos d).
  destruct (Nat.ltb_spec d (scale x)) as [Hlt|Hge].
  - exists (coef (round x d ROUND_HALF_EVEN)).
    assert (Hb := round_coef_bound x d Hlt).
    assert (Hs : scale (round x d ROUND_HALF_EVEN) = d).
    { unfold round. destruct (Nat.ltb_spec d (scale x)); [reflexivity | lia]. }
    set (n := coef (round x d ROUND_HALF_EVEN)) in *.
    rewrite Hs, (pow10_split (scale x) d) by lia.
    set (p := pow10 (scale x - d)) in *.
    assert (Hp : 0 < p) by apply pow10_pos.
    assert (E : n * (p * pow10 d) - coef x * pow10 d
                = (n * p - coef x) * pow10 d) by ring.
    rewrite E, Z.abs_mul, (Z.abs_eq (pow10 d)) by lia.
    split; [reflexivity|]. split; [nia|].
    intros Ht. assert (Ht' : 2 * Z.abs (n * p - coef x) = p) by nia.
    destruct (Z.abs_spec (n * p - coef x)) as [[_ Ha]|[_ Ha]];
      rewrite Ha in Ht'.
    + assert (Hk : 2 * coef x * pow10 d
                   = (2 * (n - 1) + 1) * pow10 (scale x)).
      { rewrite (pow10_split (scale x) d) by lia. fold p. nia. }
      apply round_tie in Hk. unfold n. rewrite Hk. cbn [coef].
      destruct (parity_cases (n - 1)) as [(E1 & _ & a & Ea)|(E1 & _ & a & Ea)];
        rewrite E1.
      * exfalso. unfold n in Ea. rewrite Hk in Ea. cbn [coef] in Ea.
        rewrite E1 in Ea.
        assert (coef (round x d ROUND_HALF_EVEN) = n) by reflexivity.
        rewrite Hk in H. cbn [coef] in H. rewrite E1 in H. lia.
      * replace (n - 1 + 1) with n by lia.
        rewrite <- Z.negb_odd.
        replace n with (n - 1 + 1) by lia.
        rewrite Z.odd_add, <- Z.negb_even, E1. reflexivity.
    + assert (Hk : 2 * coef x * pow10 d = (2 * n + 1) * pow10 (scale x)).
      { rewrite (pow10_split (scale x) d) by lia. fold p. nia. }
      apply round_tie in Hk.
      assert (Hn : coef (round x d ROUND_HALF_EVEN) = n) by reflexivity.
      rewrite Hk in Hn. cbn [coef] in Hn.
      destruct (Z.even n); [reflexivity | lia].
  - exists (coef x * pow10 (d - scale x)).
    rewrite round_id by assumption.
    rewrite (pow10_split d (scale x)) by lia.
    set (p := pow10 (d - scale x)).
    replace (coef x * p * pow10 (scale x) - coef x * (p * pow10 (scale x)))
      with 0 by ring.
    assert (Hs := pow10_pos (scale x)).
    split; [ring|]. split; [simpl; lia|]. simpl. lia.
Qed.

(** So decimals of one value round to decimals of one value. *)
Lemma round_compatible (x y : t) (d : nat) :
  (toQ x == toQ y)%Q ->
  (toQ (round x d ROUND_HALF_EVEN) == toQ (round y d ROUND_HALF_EVEN))%Q.
Proof.
  intros H. apply toQ_eq in H. apply toQ_eq.
  destruct (round_nearest x d) as (n1 & V1 & B1 & T1).
  destruct (round_nearest y d) as (n2 & V2 & B2 & T2).
  set (rx := round x d ROUND_HALF_EVEN) in *.
  set (ry := round y d ROUND_HALF_EVEN) in *.
  assert (HD := pow10_pos d).
  assert (H1 := pow10_pos (scale x)). assert (H2 := pow10_pos (scale y)).
  assert (Hrx := pow10_pos (scale rx)). assert (Hry := pow10_pos (scale ry)).
  set (S1 := pow10 (scale x)) in *. set (S2 := pow10 (scale y)) in *.
  set (D := pow10 d) in *.
  set (v1 := n1 * S1 - coef x * D) in *.
  set (v2 := n2 * S2 - coef y * D) in *.
  assert (E : (n1 - n2) * (S1 * S2) = v1 * S2 - v2 * S1)
    by (unfold v1, v2; nia).
  assert (A1 : 2 * Z.abs v1 * S2 <= S1 * S2)
    by (apply Z.mul_le_mono_nonneg_r; lia).
  assert (A2 : 2 * Z.abs v2 * S1 <= S2 * S1)
    by (apply Z.mul_le_mono_nonneg_r; lia).
  assert (P12 : 0 < S1 * S2) by nia.
  assert (Hn : n1 = n2).
  { destruct (Z.lt_trichotomy n1 n2) as [L|[Q|G]]; [|exact Q|]; exfalso.
    - assert (n1 - n2 <= -1) by lia.
      assert ((n1 - n2) * (S1 * S2) <= - (S1 * S2)) by nia.
      assert (F1 : 2 * Z.abs v1 = S1) by nia.
      assert (F2 : 2 * Z.abs v2 = S2) by nia.
      assert (n2 = n1 + 1) by nia.
      specialize (T1 F1). specialize (T2 F2).
      subst n2. rewrite Z.even_add, T1 in T2. discriminate.
    - assert (1 <= n1 - n2) by lia.
      assert (S1 * S2 <= (n1 - n2) * (S1 * S2)) by nia.
      assert (F1 : 2 * Z.abs v1 = S1) by nia.
      assert (F2 : 2 * Z.abs v2 = S2) by nia.
      assert (n1 = n2 + 1) by nia.
      specialize (T1 F1). specialize (T2 F2).
      subst n1. rewrite Z.even_add, T2 in T1. discriminate. }
  subst n2.
  assert (coef rx * D * pow10 (scale ry) = coef ry * D * pow10 (scale rx))
    by (rewrite V1, V2; ring).
  nia.
Qed.

(** Half-even rounding keeps the order. *)
Lemma round_monotone (x y : t) (d : nat) :
  (toQ x <= toQ y)%Q ->
  (toQ (round x d ROUND_HALF_EVEN) <= toQ (round y d ROUND_HALF_EVEN))%Q.
Proof.
  intros H. unfold Qle, toQ in H. cbn [Qnum Qden] in H.
  rewrite !pos_pow10 in H.
  unfold Qle, toQ. cbn [Qnum Qden]. rewrite !pos_pow10.
  destruct (round_nearest x d) as (n1 & V1 & B1 & T1).
  destruct (round_nearest y d) as (n2 & V2 & B2 & T2).
  set (rx := round x d ROUND_HALF_EVEN) in *.
  set (ry := round y d ROUND_HALF_EVEN) in *.
  assert (HD := pow10_pos d).
  assert (H1 := pow10_pos (scale x)). assert (H2 := pow10_pos (scale y)).
  assert (Hrx := pow10_pos (scale rx)). assert (Hry := pow10_pos (scale ry)).
  set (S1 := pow10 (scale x)) in *. set (S2 := pow10 (scale y)) in *.
  set (D := pow10 d) in *.
  set (v1 := n1 * S1 - coef x * D) in *.
  set (v2 := n2 * S2 - coef y * D) in *.
  set (g := coef y * S1 - coef x * S2) in *.
  assert (Hg : 0 <= g) by (unfold g; lia).
  assert (E : (n1 - n2) * (S1 * S2) = v1 * S2 - v2 * S1 - D * g)
    by (unfold v1, v2, g; nia).
  assert (A1 : 2 * Z.abs v1 * S2 <= S1 * S2)
    by (apply Z.mul_le_mono_nonneg_r; lia).
  assert (A2 : 2 * Z.abs v2 * S1 <= S2 * S1)
    by (apply Z.mul_le_mono_nonneg_r; lia).
  assert (P12 : 0 < S1 * S2) by nia.
  assert (Dg : 0 <= D * g) by nia.
  assert (Hn : n1 <= n2).
  { destruct (Z_le_gt_dec n1 n2) as [L|G]; [exact L | exfalso].
    assert (1 <= n1 - n2) by lia.
    assert (S1 * S2 <= (n1 - n2) * (S1 * S2)) by nia.
    assert (F1 : 2 * Z.abs v1 = S1) by nia.
    assert (F2 : 2 * Z.abs v2 = S2) by nia.
    assert (n1 = n2 + 1) by nia.
    specialize (T1 F1). specialize (T2 F2).
    subst n1. rewrite Z.even_add, T2 in T1. discriminate. }
  assert (L : coef rx * D * pow10 (scale ry) <= coef ry * D * pow10 (scale rx)).
  { rewrite V1, V2.
    replace (n1 * pow10 (scale rx) * pow10 (scale ry))
      with (n1 * (pow10 (scale rx) * pow10 (scale ry))) by ring.
    replace (n2 * pow10 (scale ry) * pow10 (scale rx))
      with (n2 * (pow10 (scale rx) * pow10 (scale ry))) by ring.
    apply Z.mul_le_mono_nonneg_r; nia. }
  nia.
Qed.

End DecimalOrder.

(** ** Further operations of [money.js] *)

Section MoreMoneyFacts.

Import Money.

Variable normalise : string -> string.
Variable maximumFractionDigits : string -> value.
Variable forexService : string -> string -> promise value.
Variable Big_toString : Decimal.t -> string.

Local Abbreviation new := (Money.new normalise).
Local Abbreviation new1 := (Money.new1 normalise).
Local Abbreviation plus := (Money.plus normalise).
Local Abbreviation minus := (Money.minus normalise).
Local Abbreviation times := (Money.times normalise).
Local Abbreviation round := (Money.round normalise maximumFractionDigits).
Local Abbreviation allocate :=
  (Money.allocate normalise maximumFractionDigits).
Local Abbreviation to := (Money.to normalise forexService).
Local Abbreviation produced :=
  (Money.produced normalise maximumFractionDigits forexService).
Local Abbreviation valid_precision :=
  (Money.valid_precision maximumFractionDigits).
Local Abbreviation toString := (Money.toString Big_toString).

(** *** Multiplication *)

(** [times] by a finite Number returns, in the same currency, the exact
    product of the amount and the decimal that prints the Number; nothing
    is rounded. *)
Theorem times_exact (m : Money) (k : number) :
  produced m -> Number.isFinite k = true ->
  exists f r,
    decimal_of_number k = Some f /\
    times m (VNumber k) = Return r /\
    currency r = currency m /\
    (Decimal.toQ (amount r) == Decimal.toQ (amount m) * Decimal.toQ f)%Q.
Proof.
  intros Hm Hk. apply produced_sealed in Hm. destruct Hm as [Hc _].
  destruct (decimal_of_finite k Hk) as [f Hf].
  exists f. eexists. split; [assumption|].
  rewrite (times_returns normalise m k f Hc Hf).
  split; [reflexivity|]. split; [reflexivity|]. apply toQ_times.
Qed.

(** [times] raises a TypeError for every argument that is not a Number,
    and the invalid-number error of big.js for [NaN] and the infinities. *)
Theorem times_rejects (m : Money) :
  (forall v : value,
      (forall n, v <> VNumber n) ->
      times m v = Throw (TypeError "Money multiplication needs a Number")) /\
  (forall k : number,
      Number.isFinite k = false ->
      times m (VNumber k) = Throw (BigError InvalidNumber)).
Proof.
  split.
  - intros v Hv. destruct v; try reflexivity. destruct (Hv n). reflexivity.
  - intros k Hk. apply times_throws, decimal_of_infinite, Hk.
Qed.

(** *** Comparison *)

(** For Money of one currency [compare] is the order of the amounts: -1,
    0 or 1 as the first amount is below, equal to or above the second. *)
Theorem compare_order (x y : Money) :
  currency x = currency y ->
  Money.compare x y
  = Return match (Decimal.toQ (amount x) ?= Decimal.toQ (amount y))%Q with
           | Lt => -1
           | Eq => 0
           | Gt => 1
           end.
Proof.
  intros H. unfold Money.compare. rewrite H, String.eqb_refl. simpl.
  rewrite cmp_compare. reflexivity.
Qed.

Lemma compare_swap (x y : Money) :
  Money.compare y x = (c <- Money.compare x y ;; Return (- c)).
Proof.
  unfold Money.compare. rewrite (String.eqb_sym (currency y)).
  destruct (String.eqb (currency x) (currency y)); simpl; [|reflexivity].
  rewrite cmp_antisym. reflexivity.
Qed.

(** Swapping the operands of [compare] negates its result, and leaves its
    failure as it is; the result is always -1, 0 or 1. *)
Theorem compare_antisymmetric (x y : Money) :
  Money.compare y x = (c <- Money.compare x y ;; Return (- c)) /\
  forall c, Money.compare x y = Return c -> c = -1 \/ c = 0 \/ c = 1.
Proof.
  split; [apply compare_swap|].
  unfold Money.compare. destruct (negb _); [discriminate|].
  intros c [= <-]. apply cmp_range.
Qed.

Lemma eq_true_iff (x y : Money) :
  Money.eq x y = Return true <->
  currency x = currency y /\
  (Decimal.toQ (amount x) == Decimal.toQ (amount y))%Q.
Proof.
  unfold Money.eq, Money.compare.
  destruct (String.eqb_spec (currency x) (currency y)) as [E|N]; simpl.
  - rewrite <- cmp_eq_iff. split.
    + intros [= H]. apply Z.eqb_eq in H. auto.
    + intros [_ H]. rewrite H. reflexivity.
  - split; [discriminate | intros [E _]; contradiction].
Qed.

(** [eq] and [ne] never raise, and [ne] is the negation of [eq]. *)
Theorem eq_ne_complement (x y : Money) :
  exists b, Money.eq x y = Return b /\ Money.ne x y = Return (negb b).
Proof.
  unfold Money.eq, Money.ne, Money.compare.
  destruct (String.eqb (currency x) (currency y)); simpl; eauto.
Qed.

(** [eq] is an equivalence: reflexive, symmetric and transitive. *)
Theorem eq_equivalence :
  (forall x, Money.eq x x = Return true) /\
  (forall x y, Money.eq x y = Money.eq y x) /\
  (forall x y z,
      Money.eq x y = Return true -> Money.eq y z = Return true ->
      Money.eq x z = Return true).
Proof.
  split; [|split].
  - intros x. apply eq_true_iff. split; reflexivity.
  - intros x y. unfold Money.eq.
    rewrite (String.eqb_sym (currency y)), (compare_swap x y).
    destruct (String.eqb (currency x) (currency y)); [|reflexivity].
    destruct (Money.compare x y) as [c|e]; simpl; [|reflexivity].
    f_equal. destruct (Z.eqb_spec c 0), (Z.eqb_spec (- c) 0); lia || reflexivity.
  - intros x y z Hxy Hyz. apply eq_true_iff in Hxy, Hyz. apply eq_true_iff.
    destruct Hxy as [C1 V1], Hyz as [C2 V2]. split; [congruence|].
    rewrite V1. exact V2.
Qed.

(** Between Money of differing currencies [lt], [lte], [gt] and [gte]
    raise the error of [compare]. *)
Theorem order_mismatch (x y : Money) :
  currency x <> currency y ->
  Money.lt x y = Throw CurrencyMismatch /\
  Money.lte x y = Throw CurrencyMismatch /\
  Money.gt x y = Throw CurrencyMismatch /\
  Money.gte x y = Throw CurrencyMismatch.
Proof.
  intros H. apply string_neq in H.
  unfold Money.lt, Money.lte, Money.gt, Money.gte, Money.compare.
  rewrite H. simpl. repeat split.
Qed.

(** Between Money of one currency exactly one of [lt], [eq] and [gt]
    holds, [lt] being the strict order of the amounts; [lte] and [gte] add
    equality, and swapping the operands exchanges [lt] and [gt]. *)
Theorem order_trichotomy (x y : Money) :
  currency x = currency y ->
  exists l e g : bool,
    Money.lt x y = Return l /\ Money.eq x y = Return e /\
    Money.gt x y = Return g /\
    (l = true <-> (Decimal.toQ (amount x) < Decimal.toQ (amount y))%Q) /\
    ((l = true /\ e = false /\ g = false) \/
     (l = false /\ e = true /\ g = false) \/
     (l = false /\ e = false /\ g = true)) /\
    Money.lte x y = Return (l || e) /\
    Money.gte x y = Return (g || e) /\
    Money.lt y x = Return g /\ Money.gt y x = Return l.
Proof.
  intros H.
  unfold Money.lt, Money.lte, Money.gt, Money.gte, Money.eq.
  rewrite (compare_swap x y).
  unfold Money.compare. rewrite H, String.eqb_refl. simpl.
  set (c := Decimal.cmp (amount x) (amount y)).
  exists (c <? 0), (c =? 0), (0 <? c).
  assert (Hc := cmp_range (amount x) (amount y)). fold c in Hc.
  split; [reflexivity|]. split; [reflexivity|]. split; [reflexivity|].
  split; [rewrite Z.ltb_lt; apply cmp_lt_iff|].
  split; [destruct Hc as [-> | [-> | ->]]; simpl; auto|].
  repeat split; f_equal; destruct Hc as [-> | [-> | ->]]; reflexivity.
Qed.

(** *** Sign *)

(** Exactly one of [isZero], [isPositive] and [isNegative] holds of a
    Money, according to the sign of its amount, and [isNotZero] is the
    negation of [isZero]. *)
Theorem sign_partition (m : Money) :
  ((isZero m = true /\ isPositive m = false /\ isNegative m = false) \/
   (isZero m = false /\ isPositive m = true /\ isNegative m = false) \/
   (isZero m = false /\ isPositive m = false /\ isNegative m = true)) /\
  isNotZero m = negb (isZero m) /\
  (isZero m = true <-> (Decimal.toQ (amount m) == 0)%Q) /\
  (isPositive m = true <-> (0 < Decimal.toQ (amount m))%Q) /\
  (isNegative m = true <-> (Decimal.toQ (amount m) < 0)%Q).
Proof.
  unfold isZero, isPositive, isNegative, isNotZero, zero.
  assert (Hz : (Decimal.toQ Decimal.zero == 0)%Q) by reflexivity.
  assert (Hc := cmp_range (amount m) Decimal.zero).
  split; [|split; [reflexivity|split; [|split]]].
  - destruct Hc as [-> | [-> | ->]]; simpl; auto.
  - rewrite Z.eqb_eq, cmp_eq_iff, Hz. reflexivity.
  - rewrite Z.ltb_lt, cmp_gt_iff, Hz. reflexivity.
  - rewrite Z.ltb_lt, cmp_lt_iff, Hz. reflexivity.
Qed.

(** *** Rounding *)

Lemma valid_precision_same (m m' : Money) (p : value) (d : nat) :
  currency m = currency m' -> valid_precision m p d -> valid_precision m' p d.
Proof. unfold Money.valid_precision, precision. intros ->. auto. Qed.

(** [round] is idempotent: rounding a rounded Money to the same precision
    returns it unchanged. *)
Theorem round_idempotent (m : Money) (p : value) (d : nat) :
  produced m -> valid_precision m p d ->
  exists r, round m p = Return r /\ round r p = Return r.
Proof.
  intros Hm Hp. apply produced_sealed in Hm. destruct Hm as [Hc _].
  eexists. split; [apply (round_returns _ _ m p d Hc Hp)|].
  rewrite (round_returns _ _ _ p d) by (simpl; auto).
  simpl. rewrite round_id by apply round_scale. reflexivity.
Qed.

(** [round] moves the amount by at most half a unit of the last decimal
    place kept. *)
Theorem round_within_half_unit (m : Money) (p : value) (d : nat) :
  produced m -> valid_precision m p d ->
  exists r,
    round m p = Return r /\ currency r = currency m /\
    (Qabs (Decimal.toQ (amount r) - Decimal.toQ (amount m))
     <= 1 # (2 * Z.to_pos (Decimal.pow10 d)))%Q.
Proof.
  intros Hm Hp. apply produced_sealed in Hm. destruct Hm as [Hc _].
  eexists. split; [apply (round_returns _ _ m p d Hc Hp)|].
  split; [reflexivity|]. apply round_error.
Qed.

(** [round] leaves alone an amount that is a whole number of units of the
    last decimal place kept: the result equals the Money rounded. *)
Theorem round_keeps_exact (m : Money) (p : value) (d : nat) (n : Z) :
  produced m -> valid_precision m p d ->
  (Decimal.toQ (amount m) * inject_Z (Decimal.pow10 d) == inject_Z n)%Q ->
  exists r, round m p = Return r /\ Money.eq r m = Return true.
Proof.
  intros Hm Hp Hn. apply produced_sealed in Hm. destruct Hm as [Hc _].
  eexists. split; [apply (round_returns _ _ m p d Hc Hp)|].
  apply eq_true_iff. split; [reflexivity|]. simpl.
  apply cmp_eq_iff. apply (round_exact _ _ n Hn).
Qed.

Lemma lte_true_iff (x y : Money) :
  Money.lte x y = Return true <->
  currency x = currency y /\
  (Decimal.toQ (amount x) <= Decimal.toQ (amount y))%Q.
Proof.
  unfold Money.lte, Money.compare.
  destruct (String.eqb_spec (currency x) (currency y)) as [E|N]; simpl.
  - split.
    + intros [= H]. apply Z.leb_le in H. split; [assumption|].
      apply Qnot_lt_le. intros L. apply cmp_gt_iff in L. lia.
    + intros [_ H]. f_equal. apply Z.leb_le.
      destruct (Z_le_gt_dec (Decimal.cmp (amount x) (amount y)) 0) as [|G];
        [assumption|].
      exfalso. apply Z.gt_lt, cmp_gt_iff in G.
      apply (Qlt_not_le _ _ G H).
  - split; [discriminate | intros [E _]; contradiction].
Qed.

(** [round] keeps order and equality: of two Money of one currency with
    [x.lte(y)], the rounded ones satisfy [lte] too, and equal Money round
    to equal Money. *)
Theorem round_keeps_order (x y : Money) (p : value) (d : nat) :
  produced x -> currency x = currency y -> valid_precision x p d ->
  exists rx ry,
    round x p = Return rx /\ round y p = Return ry /\
    (Money.lte x y = Return true -> Money.lte rx ry = Return true) /\
    (Money.eq x y = Return true -> Money.eq rx ry = Return true).
Proof.
  intros Hx E Hp.
  apply produced_sealed in Hx. destruct Hx as [Hcx _].
  assert (Hcy : iso4217_test (currency y) = true) by (rewrite <- E; exact Hcx).
  eexists _, _.
  split; [apply (round_returns _ _ x p d Hcx Hp)|].
  split; [apply (round_returns _ _ y p d Hcy);
          apply (valid_precision_same x y p d E Hp)|].
  split; intros H.
  - apply lte_true_iff in H. apply lte_true_iff. simpl.
    split; [tauto|]. apply round_monotone. tauto.
  - apply eq_true_iff in H. apply eq_true_iff. simpl.
    split; [tauto|]. apply round_compatible. tauto.
Qed.

(** *** Addition and subtraction *)

(** [plus] is commutative, its failure included. *)
Theorem plus_commutative (x y : Money) : plus x y = plus y x.
Proof.
  unfold Money.plus. rewrite (String.eqb_sym (currency y)).
  destruct (String.eqb_spec (currency x) (currency y)) as [E|N]; simpl;
    [|reflexivity].
  rewrite E. f_equal. f_equal.
  unfold Decimal.plus. rewrite Nat.max_comm. f_equal. apply Z.add_comm.
Qed.

(** [plus] is associative on Money of one currency: the two groupings
    return equal Money. *)
Theorem plus_associative (x y z : Money) :
  produced x -> currency x = currency y -> currency y = currency z ->
  exists xy yz l r,
    plus x y = Return xy /\ plus xy z = Return l /\
    plus y z = Return yz /\ plus x yz = Return r /\
    Money.eq l r = Return true.
Proof.
  intros Hx Hxy Hyz. apply produced_sealed in Hx. destruct Hx as [Hc _].
  assert (Hcy : iso4217_test (currency y) = true) by (rewrite <- Hxy; exact Hc).
  eexists _, _, _, _.
  split; [apply (plus_returns _ x y Hc Hxy)|].
  split; [apply plus_returns; simpl; congruence|].
  split; [apply (plus_returns _ y z Hcy Hyz)|].
  split; [apply plus_returns; simpl; congruence|].
  apply eq_true_iff. simpl. split; [reflexivity|].
  rewrite !toQ_plus. ring.
Qed.

(** [x.minus(y)] is zero exactly when [x.eq(y)], for Money of one
    currency; in particular [x.minus(x)] is zero. *)
Theorem minus_zero_iff_eq (x y : Money) :
  produced x -> currency x = currency y ->
  exists d,
    minus x y = Return d /\ currency d = currency x /\
    Money.eq x y = Return (isZero d).
Proof.
  intros Hx Hxy. apply produced_sealed in Hx. destruct Hx as [Hc _].
  eexists. split; [apply (minus_returns _ x y Hc Hxy)|].
  split; [reflexivity|].
  unfold Money.eq, Money.compare, isZero. rewrite Hxy, String.eqb_refl.
  simpl. f_equal.
  destruct (Z.eqb_spec (Decimal.cmp (amount x) (amount y)) 0) as [E|N];
    symmetry.
  - apply Z.eqb_eq, cmp_eq_iff. apply cmp_eq_iff in E.
    rewrite toQ_minus, E. unfold zero, Decimal.zero, Decimal.toQ. simpl. ring.
  - apply Z.eqb_neq. intros E. apply N, cmp_eq_iff.
    apply cmp_eq_iff in E. rewrite toQ_minus in E.
    assert (Hz : (Decimal.toQ zero == 0)%Q) by reflexivity.
    rewrite Hz in E.
    setoid_replace (Decimal.toQ (amount x))
      with (Decimal.toQ (amount x) - Decimal.toQ (amount y)
            + Decimal.toQ (amount y))%Q by ring.
    rewrite E. ring.
Qed.

(** *** The one-argument constructor and [toString] *)

Lemma length_append (a b : string) :
  String.length (a ++ b) = (String.length a + String.length b)%nat.
Proof. induction a as [|x a IH]; simpl; congruence. Qed.

Lemma substring_all (s : string) : substring 0 (String.length s) s = s.
Proof. induction s as [|x s IH]; simpl; congruence. Qed.

Lemma substring_prefix (a b : string) :
  substring 0 (String.length a) (a ++ b) = a.
Proof.
  induction a as [|x a IH]; simpl.
  - destruct b; reflexivity.
  - congruence.
Qed.

Lemma substring_skip (a b : string) (m : nat) :
  substring (String.length a) m (a ++ b) = substring 0 m b.
Proof. induction a as [|x a IH]; simpl; auto. Qed.

Lemma lastIndexOf_from_app (a b : string) (c : ascii) :
  forall i found,
    lastIndexOf_from (a ++ b) c i found
    = lastIndexOf_from b c (i + Z.of_nat (String.length a))
        (lastIndexOf_from a c i found).
Proof.
  induction a as [|x a IH]; intros i found; simpl String.length.
  - simpl. f_equal. lia.
  - cbn [append lastIndexOf_from]. rewrite IH. f_equal. lia.
Qed.

Lemma lastIndexOf_from_no_space (s : string) :
  no_space s = true ->
  forall i found, lastIndexOf_from s " " i found = found.
Proof.
  induction s as [|x s IH]; simpl; intros H i found; [reflexivity|].
  apply andb_prop in H. destruct H as [Hx Hs].
  rewrite IH by assumption.
  destruct (Ascii.eqb x " "); [discriminate | reflexivity].
Qed.

Lemma iso4217_no_space (c : string) :
  iso4217_test c = true -> no_space c = true.
Proof.
  destruct c as [|x [|y [|z [|]]]]; try discriminate. simpl. intros H.
  apply andb_prop in H. destruct H as [H Hz].
  apply andb_prop in H. destruct H as [Hx Hy].
  assert (U : forall u, is_upper u = true -> Ascii.eqb u " " = false).
  { intros u Hu. destruct (Ascii.eqb_spec u " ") as [->|]; [|reflexivity].
    discriminate. }
  rewrite (U x Hx), (U y Hy), (U z Hz). reflexivity.
Qed.

Lemma new1_split (a c : string) :
  no_space c = true ->
  new1 (OfString (a ++ " " ++ c)) = new (VString a) c.
Proof.
  intros Hc.
  unfold Money.new1, lastIndexOf.
  rewrite lastIndexOf_from_app. cbn [append lastIndexOf_from].
  rewrite (lastIndexOf_from_no_space c Hc). cbn [Ascii.eqb Bool.eqb].
  change (if (" " =? " ")%char then 0 + Z.of_nat (String.length a)
          else lastIndexOf_from a " " 0 (-1))
    with (0 + Z.of_nat (String.length a)).
  set (s := (a ++ String " " c)%string).
  assert (Hl : String.length s = (String.length a + S (String.length c))%nat)
    by (unfold s; rewrite length_append; reflexivity).
  unfold slice_from, slice. rewrite Hl.
  set (la := String.length a) in *. set (lc := String.length c) in *.
  replace (0 + Z.of_nat la + 1 <? 0) with false
    by (symmetry; apply Z.ltb_ge; lia).
  replace (Z.of_nat (la + S lc) <? 0) with false
    by (symmetry; apply Z.ltb_ge; lia).
  replace (0 + Z.of_nat la <? 0) with false
    by (symmetry; apply Z.ltb_ge; lia).
  cbn [Z.ltb Z.compare].
  replace (Z.to_nat (Z.min (0 + Z.of_nat la + 1) (Z.of_nat (la + S lc))))
    with (la + 1)%nat by lia.
  replace (Z.to_nat
             (Z.max (Z.min (Z.of_nat (la + S lc)) (Z.of_nat (la + S lc))
                     - Z.min (0 + Z.of_nat la + 1) (Z.of_nat (la + S lc))) 0))
    with lc by lia.
  replace (Z.to_nat (Z.min 0 (Z.of_nat (la + S lc)))) with 0%nat by lia.
  replace (Z.to_nat
             (Z.max (Z.min (0 + Z.of_nat la) (Z.of_nat (la + S lc))
                     - Z.min 0 (Z.of_nat (la + S lc))) 0))
    with la by lia.
  unfold s, la. rewrite substring_prefix.
  replace (String.length a + 1)%nat with (String.length (a ++ " "))
    by (rewrite length_append; reflexivity).
  replace (a ++ String " " c)%string with ((a ++ " ") ++ c)%string.
  2: { clear. induction a; simpl; congruence. }
  rewrite substring_skip. unfold lc. rewrite substring_all. reflexivity.
Qed.

Lemma new1_whole (s : string) :
  no_space s = true ->
  new1 (OfString s) = new (VString (substring 0 (String.length s - 1) s)) s.
Proof.
  intros Hs.
  unfold Money.new1, lastIndexOf.
  rewrite (lastIndexOf_from_no_space s Hs).
  unfold slice_from, slice.
  set (l := String.length s).
  change (-1 + 1) with 0. cbn [Z.ltb Z.compare].
  replace (Z.of_nat l <? 0) with false by (symmetry; apply Z.ltb_ge; lia).
  replace (Z.to_nat (Z.min 0 (Z.of_nat l))) with 0%nat by lia.
  replace (Z.to_nat (Z.max (Z.min (Z.of_nat l) (Z.of_nat l)
                            - Z.min 0 (Z.of_nat l)) 0)) with l by lia.
  replace (Z.to_nat (Z.max (Z.max (Z.of_nat l + -1) 0
                            - Z.min 0 (Z.of_nat l)) 0))
    with (l - 1)%nat by lia.
  unfold l. rewrite substring_all. reflexivity.
Qed.

(** The one-argument constructor splits its string at the last space:
    what follows is the currency and what precedes is the amount.  A
    string without a space is the currency whole, the amount being the
    string less its last character. *)
Theorem new1_string_split :
  (forall a c : string,
      no_space c = true ->
      new1 (OfString (a ++ " " ++ c)) = new (VString a) c) /\
  (forall s : string,
      no_space s = true ->
      new1 (OfString s)
      = new (VString (substring 0 (String.length s - 1) s)) s).
Proof. split; [exact new1_split | exact new1_whole]. Qed.

(** Constructing a Money from the text [toString] gives of one returns an
    equal Money, provided the normaliser and big.js read the printed
    amount back as a decimal of the same value. *)
Theorem toString_round_trip (m : Money) (a : Decimal.t) :
  produced m ->
  Decimal.parse (normalise (Big_toString (amount m))) = Some a ->
  Decimal.cmp a (amount m) = 0 ->
  exists r,
    new1 (OfString (toString m)) = Return r /\
    Money.eq r m = Return true.
Proof.
  intros Hm Hp Hv. apply produced_sealed in Hm. destruct Hm as [Hc _].
  unfold Money.toString.
  rewrite new1_split by (apply iso4217_no_space, Hc).
  unfold Money.new. simpl. rewrite Hp. simpl. rewrite Hc. simpl.
  eexists. split; [reflexivity|].
  apply eq_true_iff. split; [reflexivity|]. apply cmp_eq_iff, Hv.
Qed.

(** *** Conversion *)

(** When the rate promise is fulfilled with a value big.js accepts, [to]
    asks the rate service once and its promise is fulfilled with a Money
    in the target currency whose amount is the exact, unrounded product
    of the amount and the rate. *)
Theorem to_converts (m : Money) (c : string) (rate : value) (f : Decimal.t) :
  currency m <> c -> iso4217_test c = true ->
  forexService (currency m) c = Fulfilled rate ->
  Big.new rate = Return f ->
  to m c
  = Return (Fulfilled (mkMoney (Decimal.times (amount m) f) c true),
            [(currency m, c)]).
Proof.
  intros Hn Hc Hr Hf. unfold Money.to.
  rewrite (string_neq _ _ Hn), Hc, Hr. simpl.
  rewrite to_callback_spec.
  destruct rate; try discriminate;
    unfold Big.times; rewrite Hf; simpl;
    rewrite new_big by assumption; reflexivity.
Qed.

(** When the rate promise does not fulfil, the promise of [to] follows
    it: rejected with the same error, or pending; in both cases the rate
    service has been asked once. *)
Theorem to_follows_rate (m : Money) (c : string) :
  currency m <> c -> iso4217_test c = true ->
  (forall e,
      forexService (currency m) c = Rejected e ->
      to m c = Return (Rejected e, [(currency m, c)])) /\
  (forexService (currency m) c = Pending ->
   to m c = Return (Pending, [(currency m, c)])).
Proof.
  intros Hn Hc. unfold Money.to.
  rewrite (string_neq _ _ Hn), Hc. simpl.
  split; [intros e Hr | intros Hr]; rewrite Hr; reflexivity.
Qed.

(** *** Allocation *)

Lemma total_of_single (r : number) :
  ratio_ok r = true -> Number.is_positive r = true -> total_of [r] = r.
Proof.
  intros Hr Hp. destruct r as [s|s| |s m e].
  - destruct s; cbv in Hp; discriminate.
  - cbv in Hr. discriminate.
  - cbv in Hr. discriminate.
  - reflexivity.
Qed.

(** [allocate] with a single positive ratio returns one share, equal to
    the rounded amount. *)
Theorem allocate_single (m : Money) (p : value) (d : nat) (r : number) :
  produced m -> valid_precision m p d ->
  ratio_ok r = true -> Number.is_positive r = true ->
  exists a s,
    round m p = Return a /\
    allocate m (Array [r]) p = Return [s] /\
    Money.eq s a = Return true.
Proof.
  intros Hm Hp Hr Hpos. apply produced_sealed in Hm. destruct Hm as [Hc _].
  assert (Hf : Forall (fun x => Number.isFinite (Number.div x (total_of [r]))
                                = true) [r]).
  { apply quotients_finite; [repeat constructor; assumption|].
    rewrite total_of_single; assumption. }
  destruct (allocate_exact normalise maximumFractionDigits m p d r [] Hc Hp Hf)
    as (a & first & total' & Ha & Hs & _ & _ & Hsum & Heq).
  simpl in Hs, Hsum. injection Hsum as <-.
  exists a, first. auto.
Qed.

(** With a non-empty array of ratios, [allocate] raises the TypeError of
    [round] for a precision that is truthy and no integer, whatever the
    ratios are; with no array, the array error comes first. *)
Theorem allocate_precision_error (m : Money) (p : value) :
  truthy p = true -> Number_isInteger p = false ->
  (forall r ratios,
      allocate m (Array (r :: ratios)) p
      = Throw (TypeError "Precision must be an integer")) /\
  (forall v,
      allocate m (NotArray v) p
      = Throw (TypeError "Money allocation needs an Array")).
Proof.
  intros Ht Hi. split; [|reflexivity].
  intros r ratios. rewrite allocate_nonempty.
  unfold Money.round at 1. rewrite Ht, Hi. reflexivity.
Qed.

End MoreMoneyFacts.

(** ** The further properties at concrete inputs *)

Section MoreExamples.

Import Money.
Local Open Scope string_scope.

Lemma more_sample_produced :
  Sample.produced Sample.minus_usd35 /\ Sample.produced Sample.usd0 /\
  Sample.produced Sample.usd1005.
Proof.
  split; [|split].
  - apply (produced_new _ _ _ (VNumber (Number.literal (-35) 1)) "USD").
    vm_compute. reflexivity.
  - apply (produced_new _ _ _ (VNumber (Number.of_Z 0)) "USD").
    vm_compute. reflexivity.
  - apply (produced_new _ _ _ (VNumber (Number.literal 1005 3)) "USD").
    vm_compute. reflexivity.
Defined.

Lemma times_exact_witness :
  Number.isFinite Sample.n1_5 = true /\
  exists r,
    Sample.times Sample.usd005 (VNumber Sample.n1_5) = Return r /\
    currency r = "USD" /\
    (Decimal.toQ (amount r) == (75 # 1000))%Q.
Proof.
  split; [reflexivity|].
  destruct (times_exact Sample.normalise Sample.maximumFractionDigits
              Sample.forexService Sample.usd005 Sample.n1_5)
    as (f & r & Hf & Hr & Hc & Hv).
  - apply sample_produced.
  - reflexivity.
  - exists r. split; [exact Hr|]. split; [exact Hc|].
    rewrite Hv. vm_compute in Hf. injection Hf as <-. reflexivity.
Defined.

Lemma times_rejects_witness :
  Sample.times Sample.usd10 (VString "2")
  = Throw (TypeError "Money multiplication needs a Number") /\
  Sample.times Sample.usd10 (VNumber Number.NaN)
  = Throw (BigError InvalidNumber).
Proof.
  destruct (times_rejects Sample.normalise Sample.usd10) as [H1 H2].
  split.
  - apply H1. discriminate.
  - apply H2. reflexivity.
Defined.

Lemma compare_order_witness :
  Money.compare Sample.usd005 Sample.usd10 = Return (-1).
Proof.
  apply (compare_order Sample.usd005 Sample.usd10). reflexivity.
Defined.

Lemma compare_antisymmetric_witness :
  Money.compare Sample.usd10 Sample.usd005 = Return 1 /\
  (-1 = -1 \/ -1 = 0 \/ -1 = 1).
Proof.
  destruct (compare_antisymmetric Sample.usd005 Sample.usd10) as [H1 H2].
  split.
  - rewrite H1. reflexivity.
  - apply H2. reflexivity.
Defined.

Lemma eq_equivalence_witness :
  Money.eq Sample.usd10 (mkMoney (Decimal.mk 1000 2) "USD" true)
  = Return true.
Proof.
  destruct eq_equivalence as (_ & _ & H3).
  apply (H3 _ (mkMoney (Decimal.mk 100 1) "USD" true)); reflexivity.
Defined.

Lemma order_mismatch_witness :
  Money.lt Sample.usd10 Sample.eur1 = Throw CurrencyMismatch /\
  Money.gte Sample.usd10 Sample.eur1 = Throw CurrencyMismatch.
Proof.
  destruct (order_mismatch Sample.usd10 Sample.eur1) as (H1 & _ & _ & H4).
  - discriminate.
  - split; assumption.
Defined.

Lemma order_trichotomy_witness :
  exists l e g,
    Money.lt Sample.usd005 Sample.usd10 = Return l /\
    Money.eq Sample.usd005 Sample.usd10 = Return e /\
    Money.gt Sample.usd005 Sample.usd10 = Return g /\
    Money.lte Sample.usd005 Sample.usd10 = Return (l || e).
Proof.
  destruct (order_trichotomy Sample.usd005 Sample.usd10)
    as (l & e & g & H1 & H2 & H3 & _ & _ & H6 & _); [reflexivity|].
  exists l, e, g. split; [|split; [|split]]; assumption.
Defined.

Lemma sign_partition_witness :
  isNegative Sample.minus_usd35 = true <->
  (Decimal.toQ (amount Sample.minus_usd35) < 0)%Q.
Proof. apply (sign_partition Sample.minus_usd35). Defined.

Lemma round_idempotent_witness :
  exists r,
    Sample.round Sample.usd1005 VUndefined = Return r /\
    Sample.round r VUndefined = Return r.
Proof.
  apply (round_idempotent Sample.normalise Sample.maximumFractionDigits
           Sample.forexService Sample.usd1005 VUndefined 2).
  - apply more_sample_produced.
  - reflexivity.
Defined.

Lemma round_within_half_unit_witness :
  exists r,
    Sample.round Sample.usd1005 VUndefined = Return r /\
    currency r = "USD" /\
    (Qabs (Decimal.toQ (amount r) - (1005 # 1000)) <= 1 # 200)%Q.
Proof.
  apply (round_within_half_unit Sample.normalise Sample.maximumFractionDigits
           Sample.forexService Sample.usd1005 VUndefined 2).
  - apply more_sample_produced.
  - reflexivity.
Defined.

Lemma round_keeps_exact_witness :
  exists r,
    Sample.round Sample.usd005 VUndefined = Return r /\
    Money.eq r Sample.usd005 = Return true.
Proof.
  apply (round_keeps_exact Sample.normalise Sample.maximumFractionDigits
           Sample.forexService Sample.usd005 VUndefined 2 5).
  - apply sample_produced.
  - reflexivity.
  - reflexivity.
Defined.

Lemma round_keeps_order_witness :
  exists rx ry,
    Sample.round Sample.usd005 (VNumber Sample.n1) = Return rx /\
    Sample.round Sample.usd1005 (VNumber Sample.n1) = Return ry /\
    Money.lte rx ry = Return true.
Proof.
  destruct (round_keeps_order Sample.normalise Sample.maximumFractionDigits
              Sample.forexService Sample.usd005 Sample.usd1005
              (VNumber Sample.n1) 1)
    as (rx & ry & H1 & H2 & H3 & _).
  - apply sample_produced.
  - reflexivity.
  - reflexivity.
  - exists rx, ry. split; [|split]; try assumption. apply H3. reflexivity.
Defined.

Lemma plus_associative_witness :
  exists xy yz l r,
    Sample.plus Sample.usd10 Sample.usd005 = Return xy /\
    Sample.plus xy Sample.usd1005 = Return l /\
    Sample.plus Sample.usd005 Sample.usd1005 = Return yz /\
    Sample.plus Sample.usd10 yz = Return r /\
    Money.eq l r = Return true.
Proof.
  apply (plus_associative Sample.normalise Sample.maximumFractionDigits
           Sample.forexService Sample.usd10 Sample.usd005 Sample.usd1005).
  - apply sample_produced.
  - reflexivity.
  - reflexivity.
Defined.

Lemma minus_zero_iff_eq_witness :
  exists d,
    Sample.minus Sample.usd10 Sample.usd10 = Return d /\
    currency d = "USD" /\
    Money.eq Sample.usd10 Sample.usd10 = Return (isZero d).
Proof.
  apply (minus_zero_iff_eq Sample.normalise Sample.maximumFractionDigits
           Sample.forexService Sample.usd10 Sample.usd10).
  - apply sample_produced.
  - reflexivity.
Defined.

Lemma new1_string_split_witness :
  Sample.new1 (OfString ("1 000 EUR"))
  = Sample.new (VString "1 000") "EUR" /\
  Sample.new1 (OfString "12EUR") = Sample.new (VString "12EU") "12EUR".
Proof.
  destruct (new1_string_split Sample.normalise) as [H1 H2].
  split.
  - apply (H1 "1 000" "EUR"). reflexivity.
  - apply (H2 "12EUR"). reflexivity.
Defined.

Lemma toString_round_trip_witness :
  Sample.toString Sample.minus_usd35 = "-3.5 USD" /\
  exists r,
    Sample.new1 (OfString (Sample.toString Sample.minus_usd35)) = Return r /\
    Money.eq r Sample.minus_usd35 = Return true.
Proof.
  split; [reflexivity|].
  apply (toString_round_trip Sample.normalise Sample.maximumFractionDigits
           Sample.forexService Sample.Big_toString Sample.minus_usd35
           (Decimal.mk (-35) 1)).
  - apply more_sample_produced.
  - reflexivity.
  - reflexivity.
Defined.

Lemma to_converts_witness :
  Sample.to Sample.usd10 "EUR"
  = Return (Fulfilled (mkMoney (Decimal.mk 90 1) "EUR" true),
            [("USD", "EUR")]).
Proof.
  apply (to_converts Sample.normalise Sample.forexService Sample.usd10 "EUR"
           (VNumber (Number.literal 9 1)) (Decimal.mk 9 1)).
  - discriminate.
  - reflexivity.
  - reflexivity.
  - vm_compute. reflexivity.
Defined.

Lemma to_follows_rate_witness :
  Sample.to Sample.usd10 "CHF"
  = Return (Rejected (Error "rate service unavailable"), [("USD", "CHF")]).
Proof.
  apply (to_follows_rate Sample.normalise Sample.forexService
           Sample.usd10 "CHF").
  - discriminate.
  - reflexivity.
  - reflexivity.
Defined.

Lemma allocate_single_witness :
  exists a s,
    Sample.round Sample.usd1005 VUndefined = Return a /\
    Sample.allocate Sample.usd1005 (Array [Sample.n3]) VUndefined
    = Return [s] /\
    Money.eq s a = Return true.
Proof.
  apply (allocate_single Sample.normalise Sample.maximumFractionDigits
           Sample.forexService Sample.usd1005 VUndefined 2 Sample.n3).
  - apply more_sample_produced.
  - reflexivity.
  - reflexivity.
  - reflexivity.
Defined.

Lemma allocate_precision_error_witness :
  Sample.allocate Sample.usd10 (Array [Sample.n0; Sample.n0])
    (VNumber Sample.n1_5)
  = Throw (TypeError "Precision must be an integer").
Proof.
  apply (allocate_precision_error Sample.normalise
           Sample.maximumFractionDigits Sample.usd10 (VNumber Sample.n1_5));
    reflexivity.
Defined.

End MoreExamples.
